(** * Ports pool drivers of kuryr-kubernetes
    (kuryr_kubernetes/controller/drivers/vif_pool.py)

    A shallow embedding of [BaseVIFPool], [NeutronVIFPool] and
    [NestedVIFPool]: the four class-level dictionaries, the acquire,
    populate and release paths and the body of the recycling loop, written
    in a small state-and-exception monad over a [world] that also holds
    the state of the Neutron side, the history of the calls made to it,
    the log records and the greenthreads spawned. *)

From stdpp Require Import base option list gmap strings.

Open Scope Z_scope.

(** ** Data *)

Definition port_id := string.
Definition trunk_id := string.

(** [pool_key = (host_addr, project_id, tuple(security_groups))] *)
Definition pool_key : Type := string * string * list string.

Definition key_host (k : pool_key) : string := k.1.1.
Definition key_project (k : pool_key) : string := k.1.2.
Definition key_security_groups (k : pool_key) : list string := k.2.

(** A pod is a dictionary of dictionaries: [pod['status']['hostIP']],
    [pod['metadata']['name']], [pod['metadata']['uid']]. *)
Definition pod : Type := gmap string (gmap string string).

(** The subnets argument is only handed on to the VIF driver. *)
Definition subnets : Type := list string.

(** The vif object: its [id], and its [vlan_id] where the object has that
    attribute (the nested vifs). *)
Record vif := VIF { vif_id : port_id; vif_vlan_id : option Z }.

(** [_existing_vifs] is a [defaultdict(defaultdict)]: reading a missing key
    with [d[k]] stores an empty [defaultdict] under it and returns it. *)
Inductive vif_entry :=
| VifObject (v : vif)
| EmptyDefaultdict.

(** Truth value of what [_existing_vifs.get(id)] returns. *)
Definition truthy (o : option vif_entry) : bool :=
  match o with
  | Some (VifObject _) => true
  | Some EmptyDefaultdict | None => false
  end.

(** The exceptions the module raises, catches or lets through.
    [PortNotFoundClient] is a subclass of [NeutronClientException];
    the constructor [NeutronClientException] stands for every other
    instance of that class, [Exception] for an exception of no class
    named in the module. *)
Inductive exception :=
| KeyError
| IndexError
| AttributeError
| ResourceNotReady
| PortNotFoundClient
| NeutronClientException
| Exception.

Definition is_NeutronClientException (e : exception) : bool :=
  match e with
  | PortNotFoundClient | NeutronClientException => true
  | _ => false
  end.

(** [oslo_cfg.CONF.vif_pool] *)
Record vif_pool_conf := Conf {
  ports_pool_max : Z;
  ports_pool_min : Z;
  ports_pool_batch : Z;
  ports_pool_update_frequency : Z }.

Definition default_conf : vif_pool_conf := Conf 0 5 10 20.

(** The class-level dictionaries. *)
Record registries := Registries {
  _available_ports_pools : gmap pool_key (list port_id);
  _existing_vifs : gmap port_id vif_entry;
  _recyclable_ports : gmap port_id pool_key;
  _last_update : gmap pool_key Z;
  _known_trunk_ids : gmap pool_key trunk_id }.

Definition empty_registries : registries := Registries ∅ ∅ ∅ ∅ ∅.

(** The body of a Neutron port update: [{'port': {...}}]. *)
Record port_update := PortUpdate {
  upd_name : string;
  upd_device_id : option string;
  upd_security_groups : option (list string) }.

(** Calls that leave the process. *)
Inductive call :=
| Call_request_vifs (p : pod) (project_id : string) (s : subnets)
    (security_groups : list string) (num_ports : Z)
| Call_update_port (id : port_id) (body : port_update)
| Call_delete_port (id : port_id)
| Call_get_parent_port_by_host_ip (host : string)
| Call_get_trunk_id (parent : string)
| Call_remove_subport (trunk : trunk_id) (id : port_id)
| Call_release_vlan_id (vlan : Z).

(** One entry of the call history: the call, the dictionaries as they were
    when it was issued, and the exception it ended with, if any. *)
Record io_event := IOEvent {
  ev_call : call;
  ev_registries : registries;
  ev_raised : option exception }.

Inductive log_level := DEBUG | INFO | WARNING.

(** [eventlet.spawn(self._populate_pool, pool_key, pod, subnets)] *)
Record greenthread := Spawn_populate_pool {
  gt_pool_key : pool_key; gt_pod : pod; gt_subnets : subnets }.

(** The Neutron client and the VIF driver [_drv_vif], as transitions of an
    abstract state [P]: each call either returns or raises. *)
Class VIFProvider (P : Type) := {
  request_vifs : pod → string → subnets → list string → Z →
                 P → (exception + list vif) * P;
  update_port : port_id → port_update → P → (exception + unit) * P;
  delete_port : port_id → P → (exception + unit) * P;
  _get_parent_port_by_host_ip : string → P → (exception + string) * P;
  _get_trunk_id : string → P → (exception + trunk_id) * P;
  _remove_subport : trunk_id → port_id → P → (exception + unit) * P;
  _release_vlan_id : Z → P → (exception + unit) * P }.

Record world (P : Type) := World {
  regs : registries;
  provider : P;
  history : list io_event;
  log_records : list (log_level * string);
  spawned : list greenthread }.
Arguments World {P}.
Arguments regs {P}.
Arguments provider {P}.
Arguments history {P}.
Arguments log_records {P}.
Arguments spawned {P}.

Definition init_world {P} (p : P) : world P := World empty_registries p [] [] [].

(** ** The monad: state, exceptions and the [continue] of a loop body *)

Inductive outcome (A : Type) :=
| Return (a : A)
| Raised (e : exception)
| Continued.
Arguments Return {A}.
Arguments Raised {A}.
Arguments Continued {A}.

Definition M (P A : Type) : Type := world P → outcome A * world P.

Definition ret {P A} (a : A) : M P A := λ w, (Return a, w).
Definition raise {P A} (e : exception) : M P A := λ w, (Raised e, w).
Definition continue {P A} : M P A := λ w, (Continued, w).

Definition bind {P A B} (m : M P A) (f : A → M P B) : M P B :=
  λ w, match m w with
       | (Return a, w') => f a w'
       | (Raised e, w') => (Raised e, w')
       | (Continued, w') => (Continued, w')
       end.

(** stdpp's monad notations: [x ← m; k] and [m;; k]. *)
#[global] Instance M_ret {P} : MRet (M P) := @ret P.
#[global] Instance M_bind {P} : MBind (M P) := λ A B f m, bind m f.

(** [try: m except ...]: [handler e] is the body of the first clause that
    matches [e], [None] when no clause does. *)
Definition try_except {P A} (m : M P A)
    (handler : exception → option (M P A)) : M P A :=
  λ w, match m w with
       | (Raised e, w') =>
           match handler e with
           | Some h => h w'
           | None => (Raised e, w')
           end
       | r => r
       end.

(** [for x in xs: body x] *)
Fixpoint for_each {P A} (xs : list A) (body : A → M P unit) : M P unit :=
  match xs with
  | [] => ret tt
  | x :: xs' =>
      λ w, match body x w with
           | (Raised e, w') => (Raised e, w')
           | (_, w') => for_each xs' body w'
           end
  end.

Definition get_regs {P} : M P registries := λ w, (Return (regs w), w).

Definition put_regs {P} (r : registries) : M P unit :=
  λ w, (Return tt, World r (provider w) (history w) (log_records w) (spawned w)).

Definition LOG {P} (lvl : log_level) (msg : string) : M P unit :=
  λ w, (Return tt,
        World (regs w) (provider w) (history w) (log_records w ++ [(lvl, msg)])
              (spawned w)).

Definition eventlet_spawn {P} (g : greenthread) : M P unit :=
  λ w, (Return tt,
        World (regs w) (provider w) (history w) (log_records w) (spawned w ++ [g])).

(** A call to the outside: run the transition, record it in the history. *)
Definition io {P A} (c : call) (f : P → (exception + A) * P) : M P A :=
  λ w, let '(r, p') := f (provider w) in
       let ev e := IOEvent c (regs w) e in
       match r with
       | inr a => (Return a,
                   World (regs w) p' (history w ++ [ev None]) (log_records w) (spawned w))
       | inl e => (Raised e,
                   World (regs w) p' (history w ++ [ev (Some e)]) (log_records w) (spawned w))
       end.

(** ** Dictionary accesses *)

(** [pod[section][field]], a [KeyError] when either key is missing. *)
Definition pod_item {P} (p : pod) (section field : string) : M P string :=
  match p !! section with
  | None => raise KeyError
  | Some d => match d !! field with
              | None => raise KeyError
              | Some v => mret v
              end
  end.

(** The content of a pool as [_available_ports_pools.get(pool_key, [])]
    reads it. *)
Definition pool (r : registries) (k : pool_key) : list port_id :=
  default [] (_available_ports_pools r !! k).

Definition set_available_ports_pools (m : gmap pool_key (list port_id))
    (r : registries) : registries :=
  Registries m (_existing_vifs r) (_recyclable_ports r) (_last_update r)
             (_known_trunk_ids r).
Definition set_existing_vifs (m : gmap port_id vif_entry)
    (r : registries) : registries :=
  Registries (_available_ports_pools r) m (_recyclable_ports r) (_last_update r)
             (_known_trunk_ids r).
Definition set_recyclable_ports (m : gmap port_id pool_key)
    (r : registries) : registries :=
  Registries (_available_ports_pools r) (_existing_vifs r) m (_last_update r)
             (_known_trunk_ids r).
Definition set_last_update (m : gmap pool_key Z) (r : registries) : registries :=
  Registries (_available_ports_pools r) (_existing_vifs r) (_recyclable_ports r) m
             (_known_trunk_ids r).
Definition set_known_trunk_ids (m : gmap pool_key trunk_id)
    (r : registries) : registries :=
  Registries (_available_ports_pools r) (_existing_vifs r) (_recyclable_ports r)
             (_last_update r) m.

(** [list.pop()] / [deque.pop()]: the last element, [None] on an empty one. *)
Definition pop_last (l : list port_id) : option (list port_id * port_id) :=
  match reverse l with
  | [] => None
  | x :: r => Some (reverse r, x)
  end.

(** [self._available_ports_pools[pool_key].pop()]: the lookup of the
    [defaultdict(deque)] stores an empty deque under a missing key; [pop]
    raises [IndexError] on an empty one. *)
Definition available_pop {P} (k : pool_key) : M P port_id :=
  r ← get_regs;
  match pop_last (pool r k) with
  | None =>
      put_regs (set_available_ports_pools (<[k := []]> (_available_ports_pools r)) r);;
      raise IndexError
  | Some (l, id) =>
      put_regs (set_available_ports_pools (<[k := l]> (_available_ports_pools r)) r);;
      mret id
  end.

(** [self._available_ports_pools.setdefault(pool_key, []).append(port_id)] *)
Definition available_append {P} (k : pool_key) (id : port_id) : M P unit :=
  r ← get_regs;
  put_regs (set_available_ports_pools
              (<[k := pool r k ++ [id]]> (_available_ports_pools r)) r).

(** [self._existing_vifs[port_id]], read *)
Definition existing_getitem {P} (id : port_id) : M P vif_entry :=
  r ← get_regs;
  match _existing_vifs r !! id with
  | Some e => mret e
  | None =>
      put_regs (set_existing_vifs (<[id := EmptyDefaultdict]> (_existing_vifs r)) r);;
      mret EmptyDefaultdict
  end.

(** [self._existing_vifs[port_id] = vif] *)
Definition existing_setitem {P} (id : port_id) (v : vif) : M P unit :=
  r ← get_regs;
  put_regs (set_existing_vifs (<[id := VifObject v]> (_existing_vifs r)) r).

(** [del self._existing_vifs[port_id]] *)
Definition existing_delitem {P} (id : port_id) : M P unit :=
  r ← get_regs;
  match _existing_vifs r !! id with
  | Some _ => put_regs (set_existing_vifs (delete id (_existing_vifs r)) r)
  | None => raise KeyError
  end.

(** [self._recyclable_ports[port_id] = pool_key] *)
Definition recyclable_setitem {P} (id : port_id) (k : pool_key) : M P unit :=
  r ← get_regs;
  put_regs (set_recyclable_ports (<[id := k]> (_recyclable_ports r)) r).

(** [del self._recyclable_ports[port_id]] *)
Definition recyclable_delitem {P} (id : port_id) : M P unit :=
  r ← get_regs;
  match _recyclable_ports r !! id with
  | Some _ => put_regs (set_recyclable_ports (delete id (_recyclable_ports r)) r)
  | None => raise KeyError
  end.

(** [vif.vlan_id] on what [_existing_vifs[port_id]] returned *)
Definition attr_vlan_id {P} (e : vif_entry) : M P Z :=
  match e with
  | VifObject v => match vif_vlan_id v with
                   | Some n => mret n
                   | None => raise AttributeError
                   end
  | EmptyDefaultdict => raise AttributeError
  end.

(** ** Calls to the Neutron client and to the VIF driver *)

Section calls.
Context {P : Type} `{!VIFProvider P}.

Definition drv_request_vifs (p : pod) (project_id : string) (s : subnets)
    (security_groups : list string) (num_ports : Z) : M P (list vif) :=
  io (Call_request_vifs p project_id s security_groups num_ports)
     (request_vifs p project_id s security_groups num_ports).

Definition neutron_update_port (id : port_id) (body : port_update) : M P unit :=
  io (Call_update_port id body) (update_port id body).

Definition neutron_delete_port (id : port_id) : M P unit :=
  io (Call_delete_port id) (delete_port id).

Definition drv_get_parent_port_by_host_ip (host : string) : M P string :=
  io (Call_get_parent_port_by_host_ip host) (_get_parent_port_by_host_ip host).

Definition drv_get_trunk_id (parent : string) : M P trunk_id :=
  io (Call_get_trunk_id parent) (_get_trunk_id parent).

Definition drv_remove_subport (t : trunk_id) (id : port_id) : M P unit :=
  io (Call_remove_subport t id) (_remove_subport t id).

Definition drv_release_vlan_id (vlan : Z) : M P unit :=
  io (Call_release_vlan_id vlan) (_release_vlan_id vlan).
End calls.

(** ** BaseVIFPool *)

Module BaseVIFPool.
Section methods.
Context {P : Type} `{!VIFProvider P}.
Variable CONF : vif_pool_conf.

Definition _get_pool_size (k : pool_key) : M P Z :=
  r ← get_regs; mret (Z.of_nat (length (pool r k))).

(** [_get_port_from_pool] is the method of the subclass. *)
Definition request_vif
    (_get_port_from_pool : pool_key → pod → subnets → M P vif_entry)
    (p : pod) (project_id : string) (s : subnets)
    (security_groups : list string) : M P vif_entry :=
  host_addr ← try_except (pod_item p "status" "hostIP")
    (λ e, match e with
          | KeyError =>
              Some (LOG WARNING "Pod has not been scheduled yet.";;
                    raise KeyError)
          | _ => None
          end);
  let k : pool_key := (host_addr, project_id, security_groups) in
  try_except (_get_port_from_pool k p s)
    (λ ex, match ex with
           | ResourceNotReady =>
               Some (LOG WARNING "Ports pool does not have available ports!";;
                     eventlet_spawn (Spawn_populate_pool k p s);;
                     raise ex)
           | _ => None
           end).

(** [now] is what [time.time()] returns when the method is entered. *)
Definition _populate_pool (now : Z) (k : pool_key) (p : pod) (s : subnets)
    : M P unit :=
  r ← get_regs;
  if bool_decide (now - ports_pool_update_frequency CONF
                  < default 0 (_last_update r !! k))
  then LOG INFO "Not enough time since the last pool update"
  else
    put_regs (set_last_update (<[k := now]> (_last_update r)) r);;
    pool_size ← _get_pool_size k;
    if bool_decide (pool_size < ports_pool_min CONF) then
      let num_ports :=
        Z.max (ports_pool_batch CONF) (ports_pool_min CONF - pool_size) in
      vifs ← drv_request_vifs p (key_project k) s (key_security_groups k)
                              num_ports;
      for_each vifs (λ v,
        existing_setitem (vif_id v) v;;
        available_append k (vif_id v))
    else mret tt.

Definition release_vif (p : pod) (v : vif) (project_id : string)
    (security_groups : list string) : M P unit :=
  host_addr ← pod_item p "status" "hostIP";
  let k : pool_key := (host_addr, project_id, security_groups) in
  r ← get_regs;
  (if negb (truthy (_existing_vifs r !! vif_id v))
   then existing_setitem (vif_id v) v
   else mret tt);;
  recyclable_setitem (vif_id v) k.

(** The test both recycling loops make before they reuse a port. *)
Definition pool_has_room (pool_size : Z) : bool :=
  bool_decide (ports_pool_max CONF = 0)
  || bool_decide (pool_size < ports_pool_max CONF).
End methods.
End BaseVIFPool.

(** ** NeutronVIFPool *)

Module NeutronVIFPool.
Section methods.
Context {P : Type} `{!VIFProvider P}.
Variable CONF : vif_pool_conf.

Definition _get_port_from_pool (k : pool_key) (p : pod) (s : subnets)
    : M P vif_entry :=
  port ← try_except (available_pop k)
    (λ e, match e with
          | IndexError => Some (raise ResourceNotReady)
          | _ => None
          end);
  name ← pod_item p "metadata" "name";
  uid ← pod_item p "metadata" "uid";
  neutron_update_port port (PortUpdate name (Some uid) None);;
  pool_size ← BaseVIFPool._get_pool_size k;
  (if bool_decide (pool_size < ports_pool_min CONF)
   then eventlet_spawn (Spawn_populate_pool k p s)
   else mret tt);;
  existing_getitem port.

Definition request_vif := BaseVIFPool.request_vif (P := P) _get_port_from_pool.

(** The body of [for port_id, pool_key in ...items()]. *)
Definition recycle_port (entry : port_id * pool_key) : M P unit :=
  let '(port, k) := entry in
  pool_size ← BaseVIFPool._get_pool_size k;
  (if BaseVIFPool.pool_has_room CONF pool_size then
     try_except
       (neutron_update_port port
          (PortUpdate "available-port" (Some "") (Some (key_security_groups k))))
       (λ e, if is_NeutronClientException e
             then Some (LOG WARNING "Error preparing port %s to be reused, put back on the cleanable pool.";;
                        continue)
             else None);;
     available_append k port
   else
     try_except
       (existing_delitem port;;
        neutron_delete_port port)
       (λ e, match e with
             | PortNotFoundClient =>
                 Some (LOG DEBUG "Unable to release port %s as it no longer exists.")
             | KeyError =>
                 Some (LOG DEBUG "Port %s is not in the ports list.")
             | _ => None
             end));;
  recyclable_delitem port.

(** One pass of the [while True] body, up to the [eventlet.sleep]. *)
Definition recycle_cycle : M P unit :=
  r ← get_regs;
  for_each (map_to_list (_recyclable_ports r)) recycle_port.

(** [while True], cut after [n] passes: [Return] when the loop is still
    running then, [Raised] when an exception has ended it. *)
Fixpoint _return_ports_to_pool (n : nat) : M P unit :=
  match n with
  | O => mret tt
  | S n' => recycle_cycle;; _return_ports_to_pool n'
  end.
End methods.
End NeutronVIFPool.

(** ** NestedVIFPool *)

Module NestedVIFPool.
Section methods.
Context {P : Type} `{!VIFProvider P}.
Variable CONF : vif_pool_conf.

Definition _get_port_from_pool (k : pool_key) (p : pod) (s : subnets)
    : M P vif_entry :=
  port ← try_except (available_pop k)
    (λ e, match e with
          | IndexError => Some (raise ResourceNotReady)
          | _ => None
          end);
  name ← pod_item p "metadata" "name";
  neutron_update_port port (PortUpdate name None None);;
  pool_size ← BaseVIFPool._get_pool_size k;
  (if bool_decide (pool_size < ports_pool_min CONF)
   then eventlet_spawn (Spawn_populate_pool k p s)
   else mret tt);;
  existing_getitem port.

Definition request_vif := BaseVIFPool.request_vif (P := P) _get_port_from_pool.

(** [trunk_id = self._known_trunk_ids.get(pool_key, None)] and the lookup
    made when that is falsy: [None] or the empty string. *)
Definition resolve_trunk_id (k : pool_key) : M P trunk_id :=
  r ← get_regs;
  let known := default "" (_known_trunk_ids r !! k) in
  if bool_decide (known = "") then
    p_port ← drv_get_parent_port_by_host_ip (key_host k);
    t ← drv_get_trunk_id p_port;
    r' ← get_regs;
    put_regs (set_known_trunk_ids (<[k := t]> (_known_trunk_ids r')) r');;
    mret t
  else mret known.

Definition recycle_port (entry : port_id * pool_key) : M P unit :=
  let '(port, k) := entry in
  pool_size ← BaseVIFPool._get_pool_size k;
  (if BaseVIFPool.pool_has_room CONF pool_size then
     try_except
       (neutron_update_port port
          (PortUpdate "available-port" None (Some (key_security_groups k))))
       (λ e, if is_NeutronClientException e
             then Some (LOG WARNING "Error preparing port %s to be reused, put back on the cleanable pool.";;
                        continue)
             else None);;
     available_append k port
   else
     t ← resolve_trunk_id k;
     try_except
       (drv_remove_subport t port;;
        e ← existing_getitem port;
        vlan ← attr_vlan_id e;
        drv_release_vlan_id vlan;;
        existing_delitem port;;
        neutron_delete_port port)
       (λ e, match e with
             | PortNotFoundClient =>
                 Some (LOG DEBUG "Unable to release port %s as it no longer exists.")
             | KeyError =>
                 Some (LOG DEBUG "Port %s is not in the ports list.")
             | NeutronClientException =>
                 Some (LOG WARNING "Error removing the subport %s";;
                       continue)
             | _ => None
             end));;
  recyclable_delitem port.

Definition recycle_cycle : M P unit :=
  r ← get_regs;
  for_each (map_to_list (_recyclable_ports r)) recycle_port.

Fixpoint _return_ports_to_pool (n : nat) : M P unit :=
  match n with
  | O => mret tt
  | S n' => recycle_cycle;; _return_ports_to_pool n'
  end.
End methods.
End NestedVIFPool.

(** ** The two drivers behind one interface *)

Inductive pool_driver := Neutron | Nested.

Section dispatch.
Context {P : Type} `{!VIFProvider P}.
Variable CONF : vif_pool_conf.

Definition request_vif (d : pool_driver) :=
  match d with
  | Neutron => NeutronVIFPool.request_vif (P := P) CONF
  | Nested => NestedVIFPool.request_vif (P := P) CONF
  end.

Definition recycle_port (d : pool_driver) : port_id * pool_key → M P unit :=
  match d with
  | Neutron => NeutronVIFPool.recycle_port CONF
  | Nested => NestedVIFPool.recycle_port CONF
  end.

Definition recycle_cycle (d : pool_driver) : M P unit :=
  match d with
  | Neutron => NeutronVIFPool.recycle_cycle CONF
  | Nested => NestedVIFPool.recycle_cycle CONF
  end.

Definition _return_ports_to_pool (d : pool_driver) (n : nat) : M P unit :=
  match d with
  | Neutron => NeutronVIFPool._return_ports_to_pool CONF n
  | Nested => NestedVIFPool._return_ports_to_pool CONF n
  end.
End dispatch.

(** ** A scripted Neutron for the examples

    [request_vifs] hands out the batches of [sc_batches] in turn; the other
    calls succeed unless the port (or host) is listed with the exception
    to raise. *)

Record scripted := Scripted {
  sc_batches : list (exception + list vif);
  sc_update_port : list (port_id * exception);
  sc_delete_port : list (port_id * exception);
  sc_parent_port : list (string * exception);
  sc_remove_subport : list (port_id * exception) }.

Definition scripted_lookup (l : list (string * exception)) (x : string)
    : exception + unit :=
  match list_find (λ e, e.1 = x) l with
  | Some (_, (_, e)) => inl e
  | None => inr tt
  end.

#[global] Instance scripted_provider : VIFProvider scripted := {
  request_vifs _ _ _ _ _ sc :=
    match sc_batches sc with
    | [] => (inl NeutronClientException, sc)
    | b :: bs =>
        (b, Scripted bs (sc_update_port sc) (sc_delete_port sc)
                     (sc_parent_port sc) (sc_remove_subport sc))
    end;
  update_port id _ sc := (scripted_lookup (sc_update_port sc) id, sc);
  delete_port id sc := (scripted_lookup (sc_delete_port sc) id, sc);
  _get_parent_port_by_host_ip host sc :=
    (match scripted_lookup (sc_parent_port sc) host with
     | inl e => inl e
     | inr _ => inr ("parent-of-" +:+ host)
     end, sc);
  _get_trunk_id parent sc := (inr ("trunk-of-" +:+ parent), sc);
  _remove_subport _ id sc := (scripted_lookup (sc_remove_subport sc) id, sc);
  _release_vlan_id _ sc := (inr tt, sc) }.

(** ** Reading the embedding *)

(** [pod['status']['hostIP']] when both keys are there. *)
Definition host_address (p : pod) : option string :=
  p !! "status" ≫= λ d, d !! "hostIP".

(** The body of the update that binds a popped port to the pod. *)
Definition bind_body (d : pool_driver) (p : pod) : option port_update :=
  name ← p !! "metadata" ≫= (λ m, m !! "name");
  match d with
  | Neutron =>
      uid ← p !! "metadata" ≫= (λ m, m !! "uid");
      Some (PortUpdate name (Some uid) None)
  | Nested => Some (PortUpdate name None None)
  end.

(** The body of the update that cleans a port for reuse. *)
Definition clean_body (d : pool_driver) (k : pool_key) : port_update :=
  match d with
  | Neutron => PortUpdate "available-port" (Some "") (Some (key_security_groups k))
  | Nested => PortUpdate "available-port" None (Some (key_security_groups k))
  end.

Definition pool_size (r : registries) (k : pool_key) : Z :=
  Z.of_nat (length (pool r k)).

(** Invariant 1: the pools hold each id once, no id sits in two pools, and
    no id sits in a pool and in the recyclable ports. *)
Definition at_most_one (r : registries) : Prop :=
  (∀ k, NoDup (pool r k)) ∧
  (∀ k1 k2 id, id ∈ pool r k1 → id ∈ pool r k2 → k1 = k2) ∧
  (∀ k id, id ∈ pool r k → _recyclable_ports r !! id = None).

(** A port in use: in no pool and not waiting to be recycled. *)
Definition in_use (r : registries) (id : port_id) : Prop :=
  (∀ k, id ∉ pool r k) ∧ _recyclable_ports r !! id = None.

(** Invariant 2: what is pooled or recyclable is registered. *)
Definition registered (r : registries) : Prop :=
  (∀ k id, id ∈ pool r k → is_Some (_existing_vifs r !! id)) ∧
  (∀ id k, _recyclable_ports r !! id = Some k → is_Some (_existing_vifs r !! id)).

(** The calls a run has added to the history. *)
Definition new_events {P} (w w' : world P) : list io_event :=
  drop (length (history w)) (history w').

Definition is_delete_port (ev : io_event) : Prop :=
  ∃ id, ev_call ev = Call_delete_port id.

Definition is_request_vifs (ev : io_event) : Prop :=
  ∃ p project s sgs n, ev_call ev = Call_request_vifs p project s sgs n.

Section reachability.
Context {P : Type} `{!VIFProvider P}.
Variable CONF : vif_pool_conf.

(** Neutron hands out ports it has not handed out before: whatever batch
    it would return now holds distinct ids that are in no pool and not
    among the recyclable ports. *)
Definition provider_fresh (w : world P) : Prop :=
  ∀ p project s sgs n vifs p',
    request_vifs p project s sgs n (provider w) = (inr vifs, p') →
    NoDup (vif_id <$> vifs) ∧
    ∀ v, v ∈ vifs → in_use (regs w) (vif_id v).

(** The states the driver [d] can be in: from empty dictionaries, by
    requests, runs of [_populate_pool], releases of ports in use and
    passes of the recycling loop body over an entry of
    [_recyclable_ports]. Every step is taken whatever its outcome. *)
Inductive reachable (d : pool_driver) : world P → Prop :=
| reach_init p0 : reachable d (init_world p0)
| reach_request w p project s sgs :
    reachable d w →
    reachable d (request_vif CONF d p project s sgs w).2
| reach_populate w now k p s :
    reachable d w →
    provider_fresh w →
    reachable d (BaseVIFPool._populate_pool CONF now k p s w).2
| reach_release w p v project sgs :
    reachable d w →
    in_use (regs w) (vif_id v) →
    reachable d (BaseVIFPool.release_vif p v project sgs w).2
| reach_recycle w id k :
    reachable d w →
    _recyclable_ports (regs w) !! id = Some k →
    reachable d (recycle_port CONF d (id, k) w).2.
End reachability.

(** What one turn of the loop of [_populate_pool] leaves: the vif stored
    under its id, the id appended to the pool of [k]. *)
Definition register_vif (k : pool_key) (r : registries) (v : vif) : registries :=
  Registries (<[k := pool r k ++ [vif_id v]]> (_available_ports_pools r))
             (<[vif_id v := VifObject v]> (_existing_vifs r))
             (_recyclable_ports r) (_last_update r) (_known_trunk_ids r).

Definition register_batch (k : pool_key) (vifs : list vif) (r : registries)
    : registries :=
  foldl (register_vif k) r vifs.

(** The dictionaries once [_populate_pool] has noted the time of its run. *)
Definition note_update (k : pool_key) (now : Z) (r : registries) : registries :=
  set_last_update (<[k := now]> (_last_update r)) r.

(** What a pass of the recycling loop body over [(id, k)] does to the pools
    and to the recyclable ports: either no pool changes, or the pool of [k]
    had room, [id] is appended to it and leaves the recyclable ports. *)
Definition recycle_effect (CONF : vif_pool_conf) (id : port_id) (k : pool_key)
    (r r' : registries) : Prop :=
  ((∀ k', pool r' k' = pool r k') ∧
   (_recyclable_ports r' = _recyclable_ports r ∨
    _recyclable_ports r' = delete id (_recyclable_ports r)))
  ∨
  (BaseVIFPool.pool_has_room CONF (pool_size r k) = true ∧
   pool r' k = pool r k ++ [id] ∧
   (∀ k', k ≠ k' → pool r' k' = pool r k') ∧
   _recyclable_ports r' = delete id (_recyclable_ports r) ∧
   _existing_vifs r' = _existing_vifs r).

(** The same for a request: no pool changes, or the last id of one pool
    is taken off it. *)
Definition request_effect (r r' : registries) : Prop :=
  _recyclable_ports r' = _recyclable_ports r ∧
  (∀ id, is_Some (_existing_vifs r !! id) → is_Some (_existing_vifs r' !! id)) ∧
  ((∀ k', pool r' k' = pool r k') ∨
   (∃ k l id, pool r k = l ++ [id] ∧ pool r' k = l ∧
              ∀ k', k ≠ k' → pool r' k' = pool r k')).

(** ** Reading a call history *)

(** The VLAN id of the vif stored under [id]. *)
Definition vlan_of (r : registries) (id : port_id) : option Z :=
  match _existing_vifs r !! id with
  | Some (VifObject v) => vif_vlan_id v
  | _ => None
  end.

(** The call returned: it raised nothing. *)
Definition returned (ev : io_event) : bool :=
  match ev_raised ev with None => true | Some _ => false end.

(** [delete_port] is met only for [id], and only once [_remove_subport] of
    [id] has returned and, after it, [_release_vlan_id] of the VLAN id of
    [id] has returned. *)
Fixpoint deletes_after_detach (id : port_id) (detached released : bool)
    (evs : list io_event) : bool :=
  match evs with
  | [] => true
  | ev :: evs' =>
      match ev_call ev with
      | Call_remove_subport _ id' =>
          deletes_after_detach id (bool_decide (id' = id) && returned ev) false evs'
      | Call_release_vlan_id vlan =>
          deletes_after_detach id detached
            (detached && returned ev
             && bool_decide (vlan_of (ev_registries ev) id = Some vlan)) evs'
      | Call_delete_port id' =>
          bool_decide (id' = id) && detached && released
          && deletes_after_detach id detached released evs'
      | _ => deletes_after_detach id detached released evs'
      end
  end.

(** The exception of the first [_remove_subport] that raised. *)
Fixpoint detach_raised (evs : list io_event) : option exception :=
  match evs with
  | [] => None
  | ev :: evs' =>
      match ev_call ev, ev_raised ev with
      | Call_remove_subport _ _, Some e => Some e
      | _, _ => detach_raised evs'
      end
  end.

(** No [delete_port] among the calls. *)
Definition no_delete_port (evs : list io_event) : bool :=
  forallb (λ ev, match ev_call ev with Call_delete_port _ => false | _ => true end) evs.

(** ** Checks that compute *)

(** [in_use], as a test. *)
Definition in_use_b (r : registries) (id : port_id) : bool :=
  bool_decide (map_Forall (λ _ l, id ∉ l) (_available_ports_pools r))
  && bool_decide (_recyclable_ports r !! id = None).

(** [provider_fresh] for the scripted Neutron: the batch it hands out next. *)
Definition scripted_fresh_b (w : world scripted) : bool :=
  match sc_batches (provider w) with
  | inr vifs :: _ =>
      bool_decide (NoDup (vif_id <$> vifs))
      && forallb (λ v, in_use_b (regs w) (vif_id v)) vifs
  | _ => true
  end.

(** [registered], as a test. *)
Definition registered_b (r : registries) : bool :=
  bool_decide (map_Forall (λ _ l, Forall (λ id, is_Some (_existing_vifs r !! id)) l)
                          (_available_ports_pools r))
  && bool_decide (map_Forall (λ id _, is_Some (_existing_vifs r !! id))
                             (_recyclable_ports r)).

(** ** Example runs *)

Definition ex_key : pool_key := ("h1", "p1", ["sgA"]).
Definition ex_pod : pod :=
  {[ "status" := {[ "hostIP" := "h1" ]};
     "metadata" := {[ "name" := "pod-1"; "uid" := "uid-1" ]} ]}.
Definition ex_vif (id : port_id) : vif := VIF id (Some 100).

(** A pool filled to its maximum: two batches of two ports, the first two
    requested and released again while the second two wait in the pool.
    [failing] lists the ports whose [delete_port] raises. *)
Definition full_conf : vif_pool_conf := Conf 2 1 2 20.
Definition full_neutron (failing : list (port_id * exception)) : scripted :=
  Scripted [inr [ex_vif "r1"; ex_vif "r2"]; inr [ex_vif "r3"; ex_vif "r4"]]
           [] failing [] [].

Definition full_world (d : pool_driver) (failing : list (port_id * exception)) : world scripted :=
  let w0 := init_world (full_neutron failing) in
  let w1 := (BaseVIFPool._populate_pool full_conf 100 ex_key ex_pod [] w0).2 in
  let w2 := (request_vif full_conf d ex_pod "p1" [] ["sgA"] w1).2 in
  let w3 := (request_vif full_conf d ex_pod "p1" [] ["sgA"] w2).2 in
  let w4 := (BaseVIFPool._populate_pool full_conf 200 ex_key ex_pod [] w3).2 in
  let w5 := (BaseVIFPool.release_vif ex_pod (ex_vif "r1") "p1" ["sgA"] w4).2 in
  (BaseVIFPool.release_vif ex_pod (ex_vif "r2") "p1" ["sgA"] w5).2.


(** The scenario of the pool documentation: minimum 2, maximum 4, batches
    of 3. *)
Definition ex_conf : vif_pool_conf := Conf 4 2 3 20.

(** A Neutron that hands out [r1], [r2], [r3]; [failing] lists the ports
    whose [update_port] raises. *)
Definition ex_neutron (failing : list (port_id * exception)) : scripted :=
  Scripted [inr [ex_vif "r1"; ex_vif "r2"; ex_vif "r3"]] failing [] [] [].

(** The pool of [ex_key] after one run of [_populate_pool]. *)
Definition ex_populated (failing : list (port_id * exception)) : world scripted :=
  (BaseVIFPool._populate_pool ex_conf 100 ex_key ex_pod []
     (init_world (ex_neutron failing))).2.

(** A port created elsewhere is released: it waits to be recycled, and
    Neutron refuses to update it. *)
Definition ex_released : world scripted :=
  (BaseVIFPool.release_vif ex_pod (ex_vif "r9") "p1" ["sgA"]
     (init_world (ex_neutron [("r9", NeutronClientException)]))).2.

(** A pod that has no host yet. *)
Definition ex_unscheduled_pod : pod :=
  {[ "status" := ∅; "metadata" := {[ "name" := "pod-2"; "uid" := "uid-2" ]} ]}.

(** A maximum of 4 with the default batch of 10: one run of
    [_populate_pool] on the empty pool, then the last port is requested and
    released. *)
Definition over_conf : vif_pool_conf := Conf 4 2 10 20.

Definition over_neutron : scripted :=
  Scripted [inr (ex_vif <$> ["q1"; "q2"; "q3"; "q4"; "q5"; "q6"; "q7"; "q8"; "q9"; "q10"])]
           [] [] [] [].

Definition over_world : world scripted :=
  let w0 := init_world over_neutron in
  let w1 := (BaseVIFPool._populate_pool over_conf 100 ex_key ex_pod [] w0).2 in
  let w2 := (request_vif over_conf Neutron ex_pod "p1" [] ["sgA"] w1).2 in
  (BaseVIFPool.release_vif ex_pod (ex_vif "q10") "p1" ["sgA"] w2).2.

(** The default options, and a pool that already holds 10 ports. *)
Definition stocked_world : world scripted :=
  (BaseVIFPool._populate_pool default_conf 100 ex_key ex_pod []
     (init_world over_neutron)).2.

(** The full pool under [NestedVIFPool], with a Neutron that fails to list
    the ports of the host. *)
Definition trunk_fail : world scripted :=
  let w := full_world Nested [] in
  World (regs w) (Scripted [] [] [] [("h1", NeutronClientException)] [])
        (history w) (log_records w) (spawned w).

(** ** Further readings of a call history and of the recyclable ports *)

Definition is_update_port (ev : io_event) : Prop :=
  ∃ id body, ev_call ev = Call_update_port id body.

(** The ports queued for [k], in the order of the entries. *)
Definition ports_of (k : pool_key) (entries : list (port_id * pool_key)) : list port_id :=
  (filter (λ x, x.2 = k) entries).*1.

(** ** A Neutron that never fails

    [request_vifs] hands out [ob_batch] once; every other call returns. *)

Record obliging := Obliging { ob_batch : list vif }.

#[global] Instance obliging_provider : VIFProvider obliging := {
  request_vifs _ _ _ _ _ ob := (inr (ob_batch ob), Obliging []);
  update_port _ _ ob := (inr tt, ob);
  delete_port _ ob := (inr tt, ob);
  _get_parent_port_by_host_ip host ob := (inr ("parent-of-" +:+ host), ob);
  _get_trunk_id parent ob := (inr ("trunk-of-" +:+ parent), ob);
  _remove_subport _ _ ob := (inr tt, ob);
  _release_vlan_id _ ob := (inr tt, ob) }.

(** More example runs. *)

(** With the default options (no maximum): three ports are created, [r3]
    is requested and released. *)
Definition queued_world : world obliging :=
  let w0 := init_world (Obliging [ex_vif "r1"; ex_vif "r2"; ex_vif "r3"]) in
  let w1 := (BaseVIFPool._populate_pool default_conf 100 ex_key ex_pod [] w0).2 in
  let w2 := (request_vif default_conf Neutron ex_pod "p1" [] ["sgA"] w1).2 in
  (BaseVIFPool.release_vif ex_pod (ex_vif "r3") "p1" ["sgA"] w2).2.

(** A pod that is scheduled but has no metadata. *)
Definition ex_nameless_pod : pod := {[ "status" := {[ "hostIP" := "h1" ]} ]}.

(** The full pool after the turn of [NeutronVIFPool] over [r1] in which
    [delete_port] raised. *)
Definition neutron_after_error : world scripted :=
  (recycle_port full_conf Neutron ("r1", ex_key)
     (full_world Neutron [("r1", NeutronClientException)])).2.

(** The full pool after a turn of [NestedVIFPool] over [r1]: without and
    with [delete_port] raising. *)
Definition nested_after_turn : world scripted :=
  (recycle_port full_conf Nested ("r1", ex_key) (full_world Nested [])).2.

Definition nested_after_error : world scripted :=
  (recycle_port full_conf Nested ("r1", ex_key)
     (full_world Nested [("r1", NeutronClientException)])).2.

(** ** Reasoning about runs

    [wp m Q w]: the run of [m] from [w] ends in an outcome and a world that
    satisfy [Q]. Every run ends: the monad is a total function. *)

Definition wp {P A} (m : M P A) (Q : outcome A → world P → Prop) (w : world P) : Prop :=
  Q (m w).1 (m w).2.

Section wp.
Context {P : Type} `{!VIFProvider P}.
Implicit Types (w : world P) (r : registries) (k : pool_key) (id : port_id).

Lemma wp_run {A} (m : M P A) Q w o w' : wp m Q w → m w = (o, w') → Q o w'.
Proof. unfold wp. intros HQ Heq. by rewrite Heq in HQ. Qed.

Lemma wp_mono {A} (m : M P A) (Q Q' : outcome A → world P → Prop) w :
  wp m Q w → (∀ o w', Q o w' → Q' o w') → wp m Q' w.
Proof. unfold wp. auto. Qed.

Lemma wp_ret {A} (a : A) Q w : Q (Return a) w → wp (mret a : M P A) Q w.
Proof. done. Qed.

Lemma wp_raise {A} e (Q : outcome A → world P → Prop) w :
  Q (Raised e) w → wp (raise e) Q w.
Proof. done. Qed.

Lemma wp_continue {A} (Q : outcome A → world P → Prop) w :
  Q Continued w → wp continue Q w.
Proof. done. Qed.

Lemma wp_bind {A B} (m : M P A) (f : A → M P B) Q w :
  wp m (λ o w1, match o with
                | Return a => wp (f a) Q w1
                | Raised e => Q (Raised e) w1
                | Continued => Q Continued w1
                end) w →
  wp (m ≫= f) Q w.
Proof.
  unfold wp, mbind, M_bind, bind. by destruct (m w) as [[a|e|] w1].
Qed.

Lemma wp_try {A} (m : M P A) h Q w :
  wp m (λ o w1, match o with
                | Raised e => match h e with
                              | Some k => wp k Q w1
                              | None => Q (Raised e) w1
                              end
                | _ => Q o w1
                end) w →
  wp (try_except m h) Q w.
Proof.
  unfold wp, try_except. destruct (m w) as [[a|e|] w1]; simpl; [done| |done].
  by destruct (h e).
Qed.

Lemma wp_get_regs Q w : Q (Return (regs w)) w → wp get_regs Q w.
Proof. done. Qed.

Lemma wp_put_regs r Q w :
  Q (Return tt) (World r (provider w) (history w) (log_records w) (spawned w)) →
  wp (put_regs r) Q w.
Proof. done. Qed.

Lemma wp_LOG lvl msg Q w :
  Q (Return tt) (World (regs w) (provider w) (history w)
                       (log_records w ++ [(lvl, msg)]) (spawned w)) →
  wp (LOG lvl msg) Q w.
Proof. done. Qed.

Lemma wp_spawn g Q w :
  Q (Return tt) (World (regs w) (provider w) (history w) (log_records w)
                       (spawned w ++ [g])) →
  wp (eventlet_spawn g) Q w.
Proof. done. Qed.

Lemma wp_io {A} c (f : P → (exception + A) * P) Q w :
  (∀ a p', f (provider w) = (inr a, p') →
     Q (Return a) (World (regs w) p' (history w ++ [IOEvent c (regs w) None])
                         (log_records w) (spawned w))) →
  (∀ e p', f (provider w) = (inl e, p') →
     Q (Raised e) (World (regs w) p' (history w ++ [IOEvent c (regs w) (Some e)])
                         (log_records w) (spawned w))) →
  wp (io c f) Q w.
Proof.
  intros Hok Herr. unfold wp, io. destruct (f (provider w)) as [[e|a] p']; simpl; auto.
Qed.

Lemma wp_pod_item (p : pod) (sec field : string) Q w :
  match p !! sec ≫= (λ d, d !! field) with
  | Some v => Q (Return v) w
  | None => Q (Raised KeyError) w
  end →
  wp (pod_item p sec field) Q w.
Proof.
  unfold wp, pod_item. destruct (p !! sec) as [d|]; simpl; [|done].
  by destruct (d !! field).
Qed.
End wp.

Ltac wp_unfold :=
  unfold neutron_update_port, neutron_delete_port, drv_request_vifs,
    drv_get_parent_port_by_host_ip, drv_get_trunk_id, drv_remove_subport,
    drv_release_vlan_id,
    available_pop, available_append, existing_getitem, existing_setitem,
    existing_delitem, recyclable_setitem, recyclable_delitem, attr_vlan_id,
    BaseVIFPool._get_pool_size.

Ltac wp_simpl :=
  cbv beta iota;
  unfold set_available_ports_pools, set_existing_vifs, set_recyclable_ports,
    set_last_update, set_known_trunk_ids in *;
  cbn [regs provider history log_records spawned
       _available_ports_pools _existing_vifs _recyclable_ports _last_update
       _known_trunk_ids] in *.

Ltac wp_step :=
  lazymatch goal with
  | |- wp (mbind _ _) _ _ => apply wp_bind
  | |- wp (try_except _ _) _ _ => apply wp_try
  | |- wp (mret _) _ _ => apply wp_ret
  | |- wp (raise _) _ _ => apply wp_raise
  | |- wp continue _ _ => apply wp_continue
  | |- wp get_regs _ _ => apply wp_get_regs
  | |- wp (put_regs _) _ _ => apply wp_put_regs
  | |- wp (LOG _ _) _ _ => apply wp_LOG
  | |- wp (eventlet_spawn _) _ _ => apply wp_spawn
  | |- wp (pod_item _ _ _) _ _ => apply wp_pod_item
  | |- wp (io _ _) _ _ =>
      apply wp_io; [intros ? ? ?|intros ? ? ?]
  | |- wp (if ?b then _ else _) _ _ => destruct b eqn:?
  | |- wp (match ?x with _ => _ end) _ _ => destruct x eqn:?
  | |- match (if ?b then _ else _) with _ => _ end => destruct b eqn:?
  | |- match (match ?x with _ => _ end) with _ => _ end => destruct x eqn:?
  | |- match ?x with _ => _ end => destruct x eqn:?
  end; wp_simpl.

Ltac wp_go := wp_unfold; wp_simpl; repeat wp_step.

(** ** Lists and pools *)

Lemma pop_last_snoc l id : pop_last (l ++ [id]) = Some (l, id).
Proof. unfold pop_last. by rewrite reverse_snoc, reverse_involutive. Qed.

Lemma pop_last_None l : pop_last l = None → l = [].
Proof.
  destruct l as [|x l _] using rev_ind; [done|]. by rewrite pop_last_snoc.
Qed.

Lemma pop_last_Some l l' id : pop_last l = Some (l', id) → l = l' ++ [id].
Proof.
  destruct l as [|x l _] using rev_ind; [done|].
  rewrite pop_last_snoc. congruence.
Qed.

Lemma pool_insert_eq m e rc l t k ids :
  pool (Registries (<[k := ids]> m) e rc l t) k = ids.
Proof. unfold pool; simpl. by rewrite lookup_insert_eq. Qed.

Lemma pool_insert_ne m e rc l t k k' ids :
  k ≠ k' →
  pool (Registries (<[k := ids]> m) e rc l t) k' = default [] (m !! k').
Proof. intros. unfold pool; simpl. by rewrite lookup_insert_ne. Qed.

Lemma pool_insert_same r e rc l t k k' :
  pool (Registries (<[k := pool r k]> (_available_ports_pools r)) e rc l t) k'
  = pool r k'.
Proof.
  destruct (decide (k = k')) as [->|].
  - by rewrite pool_insert_eq.
  - by rewrite pool_insert_ne.
Qed.

Lemma wp_eq {P A} (m : M P A) (x : outcome A * world P) w :
  wp m (λ o w', (o, w') = x) w → m w = x.
Proof. unfold wp. by destruct (m w). Qed.

Lemma world_eta {P} (w : world P) :
  World (regs w) (provider w) (history w) (log_records w) (spawned w) = w.
Proof. by destruct w. Qed.

Lemma registries_eta r :
  Registries (_available_ports_pools r) (_existing_vifs r) (_recyclable_ports r)
             (_last_update r) (_known_trunk_ids r) = r.
Proof. by destruct r. Qed.

(** ** The batch stored by [_populate_pool] *)

Lemma register_batch_snoc k vifs v r :
  register_batch k (vifs ++ [v]) r = register_vif k (register_batch k vifs r) v.
Proof. unfold register_batch. by rewrite foldl_app. Qed.

Lemma register_batch_pool k vifs r :
  pool (register_batch k vifs r) k = pool r k ++ (vif_id <$> vifs).
Proof.
  induction vifs as [|v vifs IH] using rev_ind.
  - by rewrite app_nil_r.
  - rewrite register_batch_snoc. unfold register_vif.
    by rewrite pool_insert_eq, IH, fmap_app, app_assoc.
Qed.

Lemma register_batch_pool_ne k k' vifs r :
  k ≠ k' → pool (register_batch k vifs r) k' = pool r k'.
Proof.
  intros Hne. induction vifs as [|v vifs IH] using rev_ind; [done|].
  rewrite register_batch_snoc. unfold register_vif.
  by rewrite pool_insert_ne.
Qed.

Lemma register_batch_recyclable k vifs r :
  _recyclable_ports (register_batch k vifs r) = _recyclable_ports r.
Proof.
  induction vifs as [|v vifs IH] using rev_ind; [done|].
  by rewrite register_batch_snoc.
Qed.

Lemma register_batch_last_update k vifs r :
  _last_update (register_batch k vifs r) = _last_update r.
Proof.
  induction vifs as [|v vifs IH] using rev_ind; [done|].
  by rewrite register_batch_snoc.
Qed.

Lemma register_batch_existing_old k vifs r id :
  is_Some (_existing_vifs r !! id) →
  is_Some (_existing_vifs (register_batch k vifs r) !! id).
Proof.
  intros Hid. induction vifs as [|v vifs IH] using rev_ind; [done|].
  rewrite register_batch_snoc. unfold register_vif; simpl.
  destruct (decide (vif_id v = id)) as [->|].
  - rewrite lookup_insert_eq. eauto.
  - by rewrite lookup_insert_ne.
Qed.

Lemma register_batch_existing_new k vifs r v :
  v ∈ vifs → is_Some (_existing_vifs (register_batch k vifs r) !! vif_id v).
Proof.
  induction vifs as [|v' vifs IH] using rev_ind; [by intros ?%elem_of_nil|].
  intros [Hin| ->%list_elem_of_singleton]%elem_of_app;
    rewrite register_batch_snoc; unfold register_vif; simpl.
  - destruct (decide (vif_id v' = vif_id v)) as [->|].
    + rewrite lookup_insert_eq. eauto.
    + rewrite lookup_insert_ne by done. auto.
  - rewrite lookup_insert_eq. eauto.
Qed.

Section populate.
Context {P : Type} `{!VIFProvider P}.
Variable CONF : vif_pool_conf.
Implicit Types (w : world P) (r : registries) (k : pool_key) (id : port_id).

Lemma for_each_register k vifs w :
  for_each vifs (λ v, existing_setitem (vif_id v) v;; available_append k (vif_id v)) w
  = (Return tt, World (register_batch k vifs (regs w)) (provider w) (history w)
                      (log_records w) (spawned w)).
Proof.
  revert w. induction vifs as [|v vifs IH]; intros w.
  - simpl. unfold ret. by rewrite world_eta.
  - cbn [for_each]. unfold existing_setitem at 1, available_append at 1.
    unfold mbind, M_bind, bind, get_regs, put_regs. cbn [regs provider history
      log_records spawned]. rewrite IH. done.
Qed.

Lemma populate_pool_skip now k p s w :
  now - ports_pool_update_frequency CONF < default 0 (_last_update (regs w) !! k) →
  BaseVIFPool._populate_pool CONF now k p s w =
    (Return tt, World (regs w) (provider w) (history w)
       (log_records w ++ [(INFO, "Not enough time since the last pool update")])
       (spawned w)).
Proof.
  intros Hlt. apply wp_eq. unfold BaseVIFPool._populate_pool.
  wp_step. wp_step. rewrite bool_decide_eq_true_2 by done. by wp_step.
Qed.

Lemma populate_pool_run now k p s w :
  ¬ (now - ports_pool_update_frequency CONF < default 0 (_last_update (regs w) !! k)) →
  BaseVIFPool._populate_pool CONF now k p s w =
    let r1 := note_update k now (regs w) in
    if bool_decide (pool_size (regs w) k < ports_pool_min CONF) then
      let n := Z.max (ports_pool_batch CONF)
                     (ports_pool_min CONF - pool_size (regs w) k) in
      let c := Call_request_vifs p (key_project k) s (key_security_groups k) n in
      match request_vifs p (key_project k) s (key_security_groups k) n (provider w) with
      | (inr vifs, p') =>
          (Return tt, World (register_batch k vifs r1) p'
                        (history w ++ [IOEvent c r1 None]) (log_records w) (spawned w))
      | (inl e, p') =>
          (Raised e, World r1 p' (history w ++ [IOEvent c r1 (Some e)])
                       (log_records w) (spawned w))
      end
    else (Return tt, World r1 (provider w) (history w) (log_records w) (spawned w)).
Proof.
  intros Hge. cbv zeta. apply wp_eq. unfold BaseVIFPool._populate_pool.
  wp_step. wp_step. rewrite bool_decide_eq_false_2 by done.
  unfold BaseVIFPool._get_pool_size. repeat wp_step.
  all: change (Z.of_nat (length (pool _ k))) with (pool_size (regs w) k) in *.
  all: rewrite Heqb.
  2: done.
  unfold drv_request_vifs. apply wp_io; intros a p' Hreq; wp_simpl; rewrite Hreq; [|done].
  unfold wp. by rewrite for_each_register.
Qed.
End populate.


(** ** Requests and releases *)

Ltac unfold_drivers :=
  unfold request_vif, recycle_port, NeutronVIFPool.request_vif,
    NestedVIFPool.request_vif, BaseVIFPool.request_vif,
    NeutronVIFPool._get_port_from_pool, NestedVIFPool._get_port_from_pool,
    NeutronVIFPool.recycle_port, NestedVIFPool.recycle_port,
    NestedVIFPool.resolve_trunk_id, BaseVIFPool.release_vif.

Section acquire_release.
Context {P : Type} `{!VIFProvider P}.
Variable CONF : vif_pool_conf.
Implicit Types (w : world P) (r : registries) (k : pool_key) (id : port_id).

Lemma request_vif_empty_pool_wp d w p project s sgs host :
  host_address p = Some host →
  pool (regs w) (host, project, sgs) = [] →
  wp (request_vif CONF d p project s sgs) (λ o w',
    o = Raised ResourceNotReady ∧
    (∀ k', pool (regs w') k' = pool (regs w) k') ∧
    _existing_vifs (regs w') = _existing_vifs (regs w) ∧
    _recyclable_ports (regs w') = _recyclable_ports (regs w) ∧
    _last_update (regs w') = _last_update (regs w) ∧
    _known_trunk_ids (regs w') = _known_trunk_ids (regs w) ∧
    provider w' = provider w ∧ history w' = history w ∧
    spawned w' = spawned w ++ [Spawn_populate_pool (host, project, sgs) p s]) w.
Proof.
  intros Hh Hk.
  destruct d; unfold_drivers.
  all: wp_step; wp_step; wp_step.
  all: unfold host_address in Hh; rewrite Hh.
  all: wp_unfold; wp_simpl.
  all: do 5 wp_step.
  all: rewrite Hk; cbn [pop_last reverse rev_append].
  all: repeat wp_step.
  all: split_and!; try done.
  all: intros k'; rewrite <- Hk; apply pool_insert_same.
Qed.
Lemma release_vif_not_scheduled w p v project sgs :
  host_address p = None →
  BaseVIFPool.release_vif p v project sgs w = (Raised KeyError, w).
Proof.
  intros Hh. apply wp_eq. unfold_drivers. wp_step. wp_step.
  unfold host_address in Hh. by rewrite Hh.
Qed.

Lemma request_vif_not_scheduled d w p project s sgs :
  host_address p = None →
  request_vif CONF d p project s sgs w =
    (Raised KeyError,
     World (regs w) (provider w) (history w)
           (log_records w ++ [(WARNING, "Pod has not been scheduled yet.")])
           (spawned w)).
Proof.
  intros Hh. apply wp_eq. destruct d; unfold_drivers.
  all: wp_step; wp_step; wp_step.
  all: unfold host_address in Hh; rewrite Hh.
  all: by repeat wp_step.
Qed.

Lemma release_vif_run w p v project sgs host :
  host_address p = Some host →
  BaseVIFPool.release_vif p v project sgs w =
    (Return tt,
     World (Registries
              (_available_ports_pools (regs w))
              (if truthy (_existing_vifs (regs w) !! vif_id v)
               then _existing_vifs (regs w)
               else <[vif_id v := VifObject v]> (_existing_vifs (regs w)))
              (<[vif_id v := (host, project, sgs)]> (_recyclable_ports (regs w)))
              (_last_update (regs w)) (_known_trunk_ids (regs w)))
           (provider w) (history w) (log_records w) (spawned w)).
Proof.
  intros Hh. apply wp_eq. unfold_drivers. wp_step. wp_step.
  unfold host_address in Hh; rewrite Hh.
  wp_unfold. wp_simpl. wp_step. wp_step. wp_step.
  destruct (truthy _); cbn [negb]; by repeat wp_step.
Qed.

Lemma recycle_port_effect d id k w :
  wp (recycle_port CONF d (id, k))
     (λ _ w', recycle_effect CONF id k (regs w) (regs w')) w.
Proof.
  destruct d; unfold_drivers.
  all: wp_go.
  all: unfold recycle_effect.
  all: try (left; split; [done | (by left) || (by right)]).
  all: try (right; split_and!;
            [done|apply pool_insert_eq|intros; by apply pool_insert_ne|done..]).
  all: try (right; split_and!;
            [done|apply pool_insert_eq|intros; by apply pool_insert_ne|
             symmetry; by apply delete_id|done]).
Qed.

Lemma request_vif_effect d p project s sgs w :
  wp (request_vif CONF d p project s sgs)
     (λ _ w', request_effect (regs w) (regs w')) w.
Proof.
  destruct d; unfold_drivers.
  all: wp_go.
  all: unfold request_effect; cbn [_recyclable_ports _existing_vifs].
  all: try (split_and!; [done|by auto|by left]).
  all: split; [done|]; split;
    [ intros id' Hid'; try done;
      try (destruct (decide (p1 = id')) as [->|];
           [rewrite lookup_insert_eq; eauto|by rewrite lookup_insert_ne])
    | ].
  all: try (apply pop_last_None in Heqo0; left; intros k'; rewrite <- Heqo0;
            apply pool_insert_same).
  all: apply pop_last_Some in Heqo0; right; eexists _, l, p1;
    split_and!; [done|apply pool_insert_eq|intros; by apply pool_insert_ne].
Qed.
End acquire_release.


(** ** Invariant 1 under each operation *)

Section invariants.
Context {P : Type} `{!VIFProvider P}.
Variable CONF : vif_pool_conf.
Implicit Types (w : world P) (r : registries) (k : pool_key) (id : port_id).

Lemma at_most_one_shrink r r' :
  (∀ k, pool r' k `sublist_of` pool r k) →
  (∀ id, _recyclable_ports r !! id = None → _recyclable_ports r' !! id = None) →
  at_most_one r → at_most_one r'.
Proof.
  intros Hsub Hrec (Hnd & Huniq & Hdisj). split_and!.
  - intros k. eapply sublist_NoDup; eauto.
  - intros k1 k2 id H1 H2. apply (Huniq k1 k2 id).
    + exact (elem_of_sublist _ _ _ H1 (Hsub k1)).
    + exact (elem_of_sublist _ _ _ H2 (Hsub k2)).
  - intros k id Hin. apply Hrec, (Hdisj k). exact (elem_of_sublist _ _ _ Hin (Hsub k)).
Qed.

Lemma at_most_one_push r r' k ids :
  pool r' k = pool r k ++ ids →
  (∀ k', k ≠ k' → pool r' k' = pool r k') →
  NoDup ids →
  (∀ id, id ∈ ids → (∀ k', id ∉ pool r k') ∧ _recyclable_ports r' !! id = None) →
  (∀ id, _recyclable_ports r !! id = None → _recyclable_ports r' !! id = None) →
  at_most_one r → at_most_one r'.
Proof.
  intros Hk Hne Hnd Hfresh Hrec (Hnd' & Huniq & Hdisj).
  assert (Hin : ∀ k' id, id ∈ pool r' k' →
            id ∈ pool r k' ∨ (k' = k ∧ id ∈ ids)).
  { intros k' id. destruct (decide (k = k')) as [<-|Hkk].
    - rewrite Hk, elem_of_app. intros [?|?]; auto.
    - rewrite Hne by done. auto. }
  split_and!.
  - intros k'. destruct (decide (k = k')) as [<-|Hkk].
    + rewrite Hk. apply NoDup_app. split_and!; [done| |done].
      intros id Hid Hid'. by apply (proj1 (Hfresh id Hid') k).
    + by rewrite Hne.
  - intros k1 k2 id [H1|[-> H1]]%Hin [H2|[-> H2]]%Hin; [by eauto| | |done].
    + by destruct (proj1 (Hfresh id H2) k1).
    + by destruct (proj1 (Hfresh id H1) k2).
  - intros k' id [Hin'|[-> Hin']]%Hin.
    + apply Hrec. eauto.
    + by apply Hfresh.
Qed.

Lemma at_most_one_request r r' :
  request_effect r r' → at_most_one r → at_most_one r'.
Proof.
  intros (Hrec & _ & [Hsame|(k & l & id & Hk & Hk' & Hne)]).
  - apply at_most_one_shrink.
    + intros k. by rewrite Hsame.
    + intros id. by rewrite Hrec.
  - apply at_most_one_shrink.
    + intros k'. destruct (decide (k = k')) as [<-|Hkk].
      * rewrite Hk, Hk'. by apply sublist_inserts_r.
      * by rewrite Hne.
    + intros id'. by rewrite Hrec.
Qed.

Lemma at_most_one_recycle r r' id k :
  recycle_effect CONF id k r r' →
  _recyclable_ports r !! id = Some k →
  at_most_one r → at_most_one r'.
Proof.
  intros [[Hsame Hrec]|(_ & Hk & Hne & Hrec & _)] Hid Hinv.
  - revert Hinv. apply at_most_one_shrink.
    + intros k'. by rewrite Hsame.
    + intros id'. destruct Hrec as [->| ->]; [done|].
      intros ?. by apply lookup_delete_None; right.
  - apply (at_most_one_push r r' k [id]); [done|done| | | |done].
    + apply NoDup_singleton.
    + intros id' ->%list_elem_of_singleton. split.
      * intros k' Hin. destruct Hinv as (_ & _ & Hdisj).
        specialize (Hdisj k' id Hin). congruence.
      * rewrite Hrec. apply lookup_delete_eq.
    + intros id' ?. rewrite Hrec. by apply lookup_delete_None; right.
Qed.

Lemma at_most_one_release r id k e :
  in_use r id → at_most_one r →
  at_most_one (Registries (_available_ports_pools r) e
                 (<[id := k]> (_recyclable_ports r)) (_last_update r)
                 (_known_trunk_ids r)).
Proof.
  intros [Hout _] (Hnd & Huniq & Hdisj). split_and!; [done..|].
  intros k' id' Hin. cbn. rewrite lookup_insert_ne; [by eapply Hdisj|].
  intros ->. by apply (Hout k').
Qed.

Lemma at_most_one_populate r k now vifs :
  NoDup (vif_id <$> vifs) →
  (∀ v, v ∈ vifs → in_use r (vif_id v)) →
  at_most_one r → at_most_one (register_batch k vifs (note_update k now r)).
Proof.
  intros Hnd Hfresh. apply at_most_one_push with (k := k) (ids := vif_id <$> vifs).
  - by rewrite register_batch_pool.
  - intros k' ?. by rewrite register_batch_pool_ne.
  - done.
  - intros id (v & -> & Hv)%list_elem_of_fmap. rewrite register_batch_recyclable.
    destruct (Hfresh v Hv). done.
  - intros id. by rewrite register_batch_recyclable.
Qed.
End invariants.


(** ** Invariant 1 in the reachable states *)

Section reachable_states.
Context {P : Type} `{!VIFProvider P}.
Variable CONF : vif_pool_conf.
Implicit Types (w : world P) (r : registries) (k : pool_key) (id : port_id).

Lemma at_most_one_init : at_most_one empty_registries.
Proof.
  split_and!.
  - intros k. apply NoDup_nil_2.
  - intros k1 k2 id Hin. by apply elem_of_nil in Hin.
  - intros k id Hin. by apply elem_of_nil in Hin.
Qed.

Lemma populate_pool_at_most_one now k p s w :
  provider_fresh w → at_most_one (regs w) →
  at_most_one (regs (BaseVIFPool._populate_pool CONF now k p s w).2).
Proof.
  intros Hfresh Hinv.
  destruct (decide (now - ports_pool_update_frequency CONF
                    < default 0 (_last_update (regs w) !! k))) as [Hlt|Hge].
  - by rewrite populate_pool_skip.
  - rewrite populate_pool_run by done. cbv zeta.
    case_bool_decide; [|done].
    destruct (request_vifs _ _ _ _ _ _) as [[e|vifs] p'] eqn:Hreq; [done|].
    destruct (Hfresh _ _ _ _ _ _ _ Hreq) as [Hnd Huse].
    by apply at_most_one_populate.
Qed.

End reachable_states.


(** ** A request whose port update fails *)

Section bind_failure.
Context {P : Type} `{!VIFProvider P}.
Variable CONF : vif_pool_conf.
Implicit Types (w : world P) (r : registries) (k : pool_key) (id : port_id).

Lemma request_vif_bind_failure d w p project s sgs host body l id e p' :
  host_address p = Some host →
  bind_body d p = Some body →
  pool (regs w) (host, project, sgs) = l ++ [id] →
  update_port id body (provider w) = (inl e, p') →
  wp (request_vif CONF d p project s sgs) (λ o w',
    o = Raised e ∧
    pool (regs w') (host, project, sgs) = l ∧
    (∀ k', (host, project, sgs) ≠ k' → pool (regs w') k' = pool (regs w) k') ∧
    _existing_vifs (regs w') = _existing_vifs (regs w) ∧
    _recyclable_ports (regs w') = _recyclable_ports (regs w) ∧
    (∃ r1, history w' = history w ++ [IOEvent (Call_update_port id body) r1 (Some e)])) w.
Proof.
  intros Hh Hb Hk Hupd.
  unfold bind_body in Hb.
  destruct (p !! "metadata" ≫= λ m, m !! "name") as [name|] eqn:Hname; [|done].
  cbn [mbind option_bind] in Hb.
  destruct d; unfold_drivers.
  2: injection Hb as <-.
  1: destruct (p !! "metadata" ≫= λ m, m !! "uid") as [uid|] eqn:Huid; [|done];
     cbn [mbind option_bind] in Hb; injection Hb as <-.
  all: wp_step; wp_step; wp_step.
  all: unfold host_address in Hh; rewrite Hh.
  all: wp_unfold; wp_simpl.
  all: do 5 wp_step.
  all: rewrite Hk, pop_last_snoc.
  all: do 5 wp_step.
  all: rewrite Hname.
  1: do 2 wp_step; rewrite Huid.
  all: wp_step.
  all: apply wp_io; intros a p'' Hupd'; wp_simpl; rewrite Hupd in Hupd'; [discriminate|]; injection Hupd' as <- <-.
  all: wp_simpl.
  all: destruct e; repeat wp_step.
  all: split_and!; [done|apply pool_insert_eq|intros; by apply pool_insert_ne|done|done|by eexists].
Qed.
End bind_failure.

Ltac wp_finish :=
  unfold pool_size in *;
  try congruence;
  repeat match goal with
         | H : _ = (_, _) |- _ => rewrite H
         | H : _ !! _ = _ |- _ => rewrite H in *
         end;
  try congruence; try done.



(** ** The recycling loop body: reuse *)

Section clean_branch.
Context {P : Type} `{!VIFProvider P}.
Variable CONF : vif_pool_conf.
Implicit Types (w : world P) (r : registries) (k : pool_key) (id : port_id).

Lemma recycle_port_clean d id k w :
  BaseVIFPool.pool_has_room CONF (pool_size (regs w) k) = true →
  _recyclable_ports (regs w) !! id = Some k →
  recycle_port CONF d (id, k) w =
    let c := Call_update_port id (clean_body d k) in
    match update_port id (clean_body d k) (provider w) with
    | (inr _, p') =>
        (Return tt,
         World (Registries (<[k := pool (regs w) k ++ [id]]>
                              (_available_ports_pools (regs w)))
                           (_existing_vifs (regs w))
                           (delete id (_recyclable_ports (regs w)))
                           (_last_update (regs w)) (_known_trunk_ids (regs w)))
               p' (history w ++ [IOEvent c (regs w) None])
               (log_records w) (spawned w))
    | (inl e, p') =>
        if is_NeutronClientException e then
          (Continued,
           World (regs w) p' (history w ++ [IOEvent c (regs w) (Some e)])
                 (log_records w ++
                  [(WARNING, "Error preparing port %s to be reused, put back on the cleanable pool.")])
                 (spawned w))
        else
          (Raised e,
           World (regs w) p' (history w ++ [IOEvent c (regs w) (Some e)])
                 (log_records w) (spawned w))
    end.
Proof.
  intros Hroom Hid. cbv zeta. apply wp_eq.
  destruct d; unfold_drivers; unfold clean_body.
  all: wp_unfold; wp_simpl.
  all: do 4 wp_step.
  all: fold (pool_size (regs w) k); rewrite Hroom; cbv iota.
  all: do 3 wp_step.
  all: apply wp_io; intros a p' Hupd; wp_simpl; rewrite Hupd.
  all: try destruct a.
  all: repeat wp_step; simplify_eq; done.
Qed.
End clean_branch.


(** ** The recycling loop: pool sizes and deletion *)

Section delete_branch.
Context {P : Type} `{!VIFProvider P}.
Variable CONF : vif_pool_conf.
Implicit Types (w : world P) (r : registries) (k : pool_key) (id : port_id).

Lemma wp_for_each {A} (I : world P → Prop) (body : A → M P unit) xs w :
  I w →
  (∀ x w1, I w1 → wp (body x) (λ _ w2, I w2) w1) →
  wp (for_each xs body) (λ _ w', I w') w.
Proof.
  intros Hw Hbody. revert w Hw. induction xs as [|x xs IH]; intros w Hw; [done|].
  unfold wp in *. cbn [for_each].
  specialize (Hbody x w Hw). destruct (body x w) as [[[]|e|] w1]; simpl in *; auto.
Qed.

Lemma recycle_cycle_unfold d w :
  recycle_cycle CONF d w =
    for_each (map_to_list (_recyclable_ports (regs w))) (recycle_port CONF d) w.
Proof. by destruct d. Qed.

Lemma pool_has_room_lt n :
  0 < ports_pool_max CONF →
  BaseVIFPool.pool_has_room CONF n = true → n < ports_pool_max CONF.
Proof.
  intros Hmax. unfold BaseVIFPool.pool_has_room.
  rewrite bool_decide_eq_false_2 by lia. cbn [orb].
  by intros ?%bool_decide_eq_true.
Qed.

Lemma pool_has_room_false n :
  0 < ports_pool_max CONF →
  ¬ n < ports_pool_max CONF → BaseVIFPool.pool_has_room CONF n = false.
Proof.
  intros Hmax Hn. unfold BaseVIFPool.pool_has_room.
  rewrite !bool_decide_eq_false_2 by lia. done.
Qed.

Lemma recycle_effect_size id k0 r r' k :
  0 < ports_pool_max CONF →
  recycle_effect CONF id k0 r r' →
  pool_size r' k ≤ Z.max (ports_pool_max CONF) (pool_size r k).
Proof.
  intros Hmax [[Hsame _]|(Hroom & Hk & Hne & _)].
  - unfold pool_size. rewrite Hsame. lia.
  - apply pool_has_room_lt in Hroom; [|done].
    unfold pool_size in *. destruct (decide (k0 = k)) as [<-|Hkk].
    + rewrite Hk, length_app. simpl. lia.
    + rewrite Hne by done. lia.
Qed.

Lemma recycle_cycle_size d w k :
  0 < ports_pool_max CONF →
  pool_size (regs (recycle_cycle CONF d w).2) k
  ≤ Z.max (ports_pool_max CONF) (pool_size (regs w) k).
Proof.
  intros Hmax. rewrite recycle_cycle_unfold.
  apply (wp_for_each (λ w', pool_size (regs w') k
                            ≤ Z.max (ports_pool_max CONF) (pool_size (regs w) k))).
  - lia.
  - intros [id k0] w1 Hw1. eapply wp_mono; [apply recycle_port_effect|].
    intros o w2 Heff. cbv beta in Heff.
    pose proof (recycle_effect_size id k0 _ _ k Hmax Heff). lia.
Qed.

Lemma neutron_recycle_port_full id k w v :
  BaseVIFPool.pool_has_room CONF (pool_size (regs w) k) = false →
  _existing_vifs (regs w) !! id = Some v →
  _recyclable_ports (regs w) !! id = Some k →
  NeutronVIFPool.recycle_port CONF (id, k) w =
    let r1 := Registries (_available_ports_pools (regs w))
                (delete id (_existing_vifs (regs w))) (_recyclable_ports (regs w))
                (_last_update (regs w)) (_known_trunk_ids (regs w)) in
    let r2 := Registries (_available_ports_pools (regs w))
                (delete id (_existing_vifs (regs w)))
                (delete id (_recyclable_ports (regs w)))
                (_last_update (regs w)) (_known_trunk_ids (regs w)) in
    let c := Call_delete_port id in
    match delete_port id (provider w) with
    | (inr _, p') =>
        (Return tt, World r2 p' (history w ++ [IOEvent c r1 None])
                          (log_records w) (spawned w))
    | (inl PortNotFoundClient, p') =>
        (Return tt,
         World r2 p' (history w ++ [IOEvent c r1 (Some PortNotFoundClient)])
               (log_records w ++
                [(DEBUG, "Unable to release port %s as it no longer exists.")])
               (spawned w))
    | (inl KeyError, p') =>
        (Return tt,
         World r2 p' (history w ++ [IOEvent c r1 (Some KeyError)])
               (log_records w ++ [(DEBUG, "Port %s is not in the ports list.")])
               (spawned w))
    | (inl e, p') =>
        (Raised e, World r1 p' (history w ++ [IOEvent c r1 (Some e)])
                         (log_records w) (spawned w))
    end.
Proof.
  intros Hroom Hex Hid. cbv zeta. apply wp_eq.
  unfold NeutronVIFPool.recycle_port.
  wp_go; wp_finish.
Qed.

Lemma neutron_recycle_port_unregistered id k w :
  BaseVIFPool.pool_has_room CONF (pool_size (regs w) k) = false →
  _existing_vifs (regs w) !! id = None →
  _recyclable_ports (regs w) !! id = Some k →
  NeutronVIFPool.recycle_port CONF (id, k) w =
    (Return tt,
     World (Registries (_available_ports_pools (regs w)) (_existing_vifs (regs w))
                       (delete id (_recyclable_ports (regs w)))
                       (_last_update (regs w)) (_known_trunk_ids (regs w)))
           (provider w) (history w)
           (log_records w ++ [(DEBUG, "Port %s is not in the ports list.")])
           (spawned w)).
Proof.
  intros Hroom Hex Hid. apply wp_eq.
  unfold NeutronVIFPool.recycle_port.
  wp_go; wp_finish.
Qed.
End delete_branch.


(** ** The nested loop body: order of the calls *)

Section nested_events.
Context {P : Type} `{!VIFProvider P}.
Variable CONF : vif_pool_conf.
Implicit Types (w : world P) (r : registries) (k : pool_key) (id : port_id).

Lemma nested_recycle_events id k w :
  wp (NestedVIFPool.recycle_port CONF (id, k)) (λ o w',
    ∃ evs, history w' = history w ++ evs ∧
      deletes_after_detach id false false evs = true ∧
      ∀ e, detach_raised evs = Some e →
           no_delete_port evs = true ∧
           (e = NeutronClientException →
            o = Continued ∧ _recyclable_ports (regs w') = _recyclable_ports (regs w))) w.
Proof.
  unfold_drivers. wp_go.
  all: rewrite <- ?app_assoc; eexists; split; [try reflexivity; by rewrite app_nil_r|].
  all: cbn [app deletes_after_detach detach_raised no_delete_port forallb
            ev_call ev_raised ev_registries returned andb].
  all: try (split; [done|intros ? [=]]).
  all: rewrite ?bool_decide_eq_true_2 by done; cbn [andb].
  all: try (split; [done|intros ? [=]]).
  all: unfold vlan_of; cbn [_existing_vifs]; simplify_eq.
  all: repeat match goal with
              | H : _existing_vifs _ !! _ = _ |- _ => rewrite H
              | H : vif_vlan_id _ = _ |- _ => rewrite H
              end.
  all: rewrite ?bool_decide_eq_true_2 by done; cbn [andb].
  all: try (split; [done|intros ? [=]]).
  all: split; [done|]; first [by intros [=] | by intros _].
Qed.
End nested_events.


(** ** The checks are sound *)

Lemma in_use_b_true r id : in_use_b r id = true → in_use r id.
Proof.
  unfold in_use_b. intros [Hp Hr]%andb_prop.
  apply bool_decide_eq_true in Hp, Hr. split; [|done].
  intros k Hin. unfold pool in Hin.
  destruct (_available_ports_pools r !! k) as [l|] eqn:Hk; simpl in Hin.
  - by apply (Hp k l Hk).
  - by apply elem_of_nil in Hin.
Qed.

Lemma scripted_fresh_b_true (w : world scripted) :
  scripted_fresh_b w = true → provider_fresh w.
Proof.
  unfold scripted_fresh_b, provider_fresh. intros Hb p project s sgs n vifs p'.
  cbn [request_vifs scripted_provider].
  destruct (sc_batches (provider w)) as [|[e|vifs'] bs]; [done| |].
  - intros [=].
  - intros [= <- _]. apply andb_prop in Hb as [Hnd Hall].
    apply bool_decide_eq_true in Hnd. split; [done|].
    intros v Hv. apply in_use_b_true.
    rewrite forallb_forall in Hall. apply Hall. by apply list_elem_of_In.
Qed.

Lemma registered_b_true r : registered_b r = true → registered r.
Proof.
  unfold registered_b. intros [Hp Hr]%andb_prop.
  apply bool_decide_eq_true in Hp, Hr. split.
  - intros k id Hin. unfold pool in Hin.
    destruct (_available_ports_pools r !! k) as [l|] eqn:Hk; simpl in Hin.
    + specialize (Hp k l Hk). cbv beta in Hp. rewrite Forall_forall in Hp. auto.
    + by apply elem_of_nil in Hin.
  - intros id k Hid. by apply (Hr id k).
Qed.

Lemma full_world_reachable d failing : reachable full_conf d (full_world d failing).
Proof.
  unfold full_world. cbv zeta.
  apply reach_release; [apply reach_release; [apply reach_populate;
    [do 2 apply reach_request; apply reach_populate; [apply reach_init|]|]|]|].
  - apply scripted_fresh_b_true. destruct d; vm_compute; reflexivity.
  - apply scripted_fresh_b_true. destruct d; vm_compute; reflexivity.
  - apply in_use_b_true. destruct d; vm_compute; reflexivity.
  - apply in_use_b_true. destruct d; vm_compute; reflexivity.
Qed.

(** ** The recycling loop as a whole *)

Section loop.
Context {P : Type} `{!VIFProvider P}.
Variable CONF : vif_pool_conf.
Implicit Types (w : world P) (r : registries) (k : pool_key) (id : port_id).

Lemma bind_raised {A B} (m : M P A) (f : A → M P B) w e :
  (m w).1 = Raised e → (m ≫= f) w = (Raised e, (m w).2).
Proof.
  unfold mbind, M_bind, bind. destruct (m w) as [[a| |] w']; simpl; congruence.
Qed.

(** An exception in one pass ends [_return_ports_to_pool], in the state
    the pass left. *)
Lemma return_ports_to_pool_raised d n w e :
  (recycle_cycle CONF d w).1 = Raised e →
  (_return_ports_to_pool CONF d (S n) w).1 = Raised e ∧
  (_return_ports_to_pool CONF d (S n) w).2 = (recycle_cycle CONF d w).2.
Proof.
  intros Hc. destruct d; cbn [_return_ports_to_pool
    NeutronVIFPool._return_ports_to_pool NestedVIFPool._return_ports_to_pool].
  all: by erewrite bind_raised.
Qed.
End loop.

(** C1 (the code departs from the claim). The recycling loop of
    [NeutronVIFPool] ends on a failure of one port: in a pool that is full,
    with [r1] and [r2] waiting to be recycled, [delete_port] of [r1] raises
    a [NeutronClientException]; the pass over [r1] raises it, and so does
    [_return_ports_to_pool] however many passes it is given; [r2] is still
    waiting and no call was made for it. In [NestedVIFPool] a failure to
    find the parent port ends the pass in the same way. *)
Theorem neutron_delete_error_ends_loop :
  let w := full_world Neutron [("r1", NeutronClientException)] in
  reachable full_conf Neutron w ∧
  map_to_list (_recyclable_ports (regs w)) = [("r1", ex_key); ("r2", ex_key)] ∧
  (recycle_port full_conf Neutron ("r1", ex_key) w).1 = Raised NeutronClientException ∧
  (∀ n, let r := _return_ports_to_pool full_conf Neutron (S n) w in
        r.1 = Raised NeutronClientException ∧
        _recyclable_ports (regs r.2) !! "r2" = Some ex_key ∧
        ev_call <$> new_events w r.2 = [Call_delete_port "r1"]) ∧
  (recycle_port full_conf Nested ("r1", ex_key) trunk_fail).1
    = Raised NeutronClientException.
Proof.
  cbv zeta. split_and!.
  - apply full_world_reachable.
  - vm_compute. reflexivity.
  - vm_compute. reflexivity.
  - intros n.
    destruct (return_ports_to_pool_raised full_conf Neutron n
                (full_world Neutron [("r1", NeutronClientException)])
                NeutronClientException) as [Ho Hw]; [vm_compute; reflexivity|].
    rewrite Ho, Hw. split_and!; vm_compute; reflexivity.
  - vm_compute. reflexivity.
Qed.

(** C3 (the code departs from the claim). What waits to be recycled can
    lose its entry in [_existing_vifs]: in the full pool above every pooled
    or recyclable port is registered; the pass of the [NeutronVIFPool] loop
    over [r1] deletes its entry, [delete_port] raises, and [r1] stays in
    [_recyclable_ports] with no entry in [_existing_vifs]. The pass of
    [NestedVIFPool] catches the exception and goes on to the next port,
    leaving the same state. Both states are reachable. *)
Theorem delete_error_leaves_unregistered_port :
  let w := full_world Neutron [("r1", NeutronClientException)] in
  let w' := (recycle_port full_conf Neutron ("r1", ex_key) w).2 in
  let v := full_world Nested [("r1", NeutronClientException)] in
  let v' := recycle_port full_conf Nested ("r1", ex_key) v in
  registered (regs w) ∧
  reachable full_conf Neutron w' ∧
  _recyclable_ports (regs w') !! "r1" = Some ex_key ∧
  _existing_vifs (regs w') !! "r1" = None ∧
  ¬ registered (regs w') ∧
  registered (regs v) ∧
  reachable full_conf Nested v'.2 ∧
  v'.1 = Continued ∧
  _recyclable_ports (regs v'.2) !! "r1" = Some ex_key ∧
  _existing_vifs (regs v'.2) !! "r1" = None ∧
  ¬ registered (regs v'.2).
Proof.
  cbv zeta. split_and!.
  - apply registered_b_true. vm_compute. reflexivity.
  - apply reach_recycle; [apply full_world_reachable|]. vm_compute. reflexivity.
  - vm_compute. reflexivity.
  - vm_compute. reflexivity.
  - intros [_ Hrec]. specialize (Hrec "r1" ex_key).
    assert (is_Some (None : option vif_entry)) as [? [=]].
    apply Hrec. vm_compute. reflexivity.
  - apply registered_b_true. vm_compute. reflexivity.
  - apply (reach_recycle full_conf Nested); [apply full_world_reachable|].
    vm_compute. reflexivity.
  - vm_compute. reflexivity.
  - vm_compute. reflexivity.
  - vm_compute. reflexivity.
  - intros [_ Hrec]. specialize (Hrec "r1" ex_key).
    assert (is_Some (None : option vif_entry)) as [? [=]].
    apply Hrec. vm_compute. reflexivity.
Qed.

(** ** The claims *)

Section claims.
Context {P : Type} `{!VIFProvider P}.
Variable CONF : vif_pool_conf.
Implicit Types (w : world P) (r : registries) (k : pool_key) (id : port_id).

(** C2. In every reachable state of either driver no id is twice in a
    pool, in two pools, or in a pool and among the recyclable ports. The
    states are reached by requests, runs of [_populate_pool] (Neutron
    handing out ports that are in no pool and not recyclable), releases of
    ports in use and passes of the recycling loop body, whatever their
    outcome. *)
Theorem reachable_at_most_one d w :
  reachable CONF d w → at_most_one (regs w).
Proof.
  induction 1 as [p0|w p project s sgs _ IH|w now k p s _ IH Hfresh
                  |w p v project sgs _ IH Huse|w id k _ IH Hid].
  - apply at_most_one_init.
  - eapply at_most_one_request; [|exact IH]. apply request_vif_effect.
  - by apply populate_pool_at_most_one.
  - destruct (host_address p) as [host|] eqn:Hh.
    + rewrite (release_vif_run _ _ _ _ _ host) by done.
      by apply at_most_one_release.
    + by rewrite release_vif_not_scheduled.
  - eapply at_most_one_recycle; [|exact Hid|exact IH]. apply recycle_port_effect.
Qed.

(** C4 (amended). When the pool has room, the pass over an entry [(id, k)]
    of the recyclable ports asks Neutron to clean the port and: if the
    update returns, appends [id] to the pool of [k] and deletes the entry;
    if it raises a [NeutronClientException], logs a warning and goes on to
    the next entry, the dictionaries unchanged, so that the entry stays
    among the recyclable ports; any other exception leaves the loop, the
    dictionaries unchanged as well. *)
Theorem clean_attempt_outcome d id k w :
  BaseVIFPool.pool_has_room CONF (pool_size (regs w) k) = true →
  _recyclable_ports (regs w) !! id = Some k →
  recycle_port CONF d (id, k) w =
    let c := Call_update_port id (clean_body d k) in
    match update_port id (clean_body d k) (provider w) with
    | (inr _, p') =>
        (Return tt,
         World (Registries (<[k := pool (regs w) k ++ [id]]>
                              (_available_ports_pools (regs w)))
                           (_existing_vifs (regs w))
                           (delete id (_recyclable_ports (regs w)))
                           (_last_update (regs w)) (_known_trunk_ids (regs w)))
               p' (history w ++ [IOEvent c (regs w) None])
               (log_records w) (spawned w))
    | (inl e, p') =>
        if is_NeutronClientException e then
          (Continued,
           World (regs w) p' (history w ++ [IOEvent c (regs w) (Some e)])
                 (log_records w ++
                  [(WARNING, "Error preparing port %s to be reused, put back on the cleanable pool.")])
                 (spawned w))
        else
          (Raised e,
           World (regs w) p' (history w ++ [IOEvent c (regs w) (Some e)])
                 (log_records w) (spawned w))
    end.
Proof. apply recycle_port_clean. Qed.

(** C5 (amended). With a maximum [N > 0], a pass of the recycling loop
    over all recyclable ports leaves every pool with at most
    [max N (its size before)] ports: a pool that did not exceed [N] still
    does not. One turn of the loop either changes no pool or appends the
    port to its pool, and that only when the pool holds fewer than [N]
    ports. In a full pool the turn of [NeutronVIFPool] over a registered
    port changes no pool, deletes the port from [_existing_vifs] and calls
    [delete_port] for it. *)
Theorem recycle_cycle_respects_max d w k :
  0 < ports_pool_max CONF →
  pool_size (regs (recycle_cycle CONF d w).2) k
    ≤ Z.max (ports_pool_max CONF) (pool_size (regs w) k) ∧
  (pool_size (regs w) k ≤ ports_pool_max CONF →
   pool_size (regs (recycle_cycle CONF d w).2) k ≤ ports_pool_max CONF) ∧
  (∀ id k0 w1,
     let w2 := (recycle_port CONF d (id, k0) w1).2 in
     (∀ k', pool (regs w2) k' = pool (regs w1) k') ∨
     (pool_size (regs w1) k0 < ports_pool_max CONF ∧
      pool (regs w2) k0 = pool (regs w1) k0 ++ [id] ∧
      ∀ k', k0 ≠ k' → pool (regs w2) k' = pool (regs w1) k')) ∧
  (∀ id k0 w1 v,
     ¬ pool_size (regs w1) k0 < ports_pool_max CONF →
     _existing_vifs (regs w1) !! id = Some v →
     _recyclable_ports (regs w1) !! id = Some k0 →
     let w2 := (recycle_port CONF Neutron (id, k0) w1).2 in
     (∀ k', pool (regs w2) k' = pool (regs w1) k') ∧
     _existing_vifs (regs w2) !! id = None ∧
     ∃ r e, history w2 = history w1 ++ [IOEvent (Call_delete_port id) r e]).
Proof.
  intros Hmax. split_and!.
  - by apply recycle_cycle_size.
  - intros Hle. pose proof (recycle_cycle_size CONF d w k Hmax). lia.
  - intros id k0 w1. cbv zeta.
    destruct (recycle_port_effect CONF d id k0 w1)
      as [[Hsame _]|(Hroom & Hk & Hne & _)]; [by left|right].
    split_and!; [|done..]. by apply pool_has_room_lt.
  - intros id k0 w1 v Hfull Hex Hid. cbv zeta. unfold recycle_port.
    rewrite (neutron_recycle_port_full CONF id k0 w1 v)
      by (try apply pool_has_room_false; done).
    cbv zeta.
    destruct (delete_port id (provider w1)) as [[[]|[]] p']; cbn [snd regs history
      _existing_vifs]; (split_and!; [done|apply lookup_delete_eq|by eexists _, _]).
Qed.

(** C6 (amended). When the last run for [k] is at least
    [ports_pool_update_frequency] old, [_populate_pool] first stores [now]
    in [_last_update]. Then, if the pool holds fewer than [ports_pool_min]
    ports, it asks the VIF driver for
    [max(ports_pool_batch, ports_pool_min - size)] ports, a call made with
    [now] already stored, and on its return stores every vif under its id
    and appends the ids to the pool in order; an exception of the driver
    leaves only the stored time. If the pool holds [ports_pool_min] ports
    or more, nothing is asked and only the time is stored. With a minimum
    of 5, batches of 10 and an empty pool, 10 ports are asked for. *)
Theorem populate_pool_replenishes now k p s w :
  ¬ (now - ports_pool_update_frequency CONF
     < default 0 (_last_update (regs w) !! k)) →
  let r1 := note_update k now (regs w) in
  let n := Z.max (ports_pool_batch CONF)
                 (ports_pool_min CONF - pool_size (regs w) k) in
  let c := Call_request_vifs p (key_project k) s (key_security_groups k) n in
  _last_update r1 !! k = Some now ∧
  (pool_size (regs w) k < ports_pool_min CONF →
   match request_vifs p (key_project k) s (key_security_groups k) n (provider w) with
   | (inr vifs, p') =>
       BaseVIFPool._populate_pool CONF now k p s w =
         (Return tt, World (register_batch k vifs r1) p'
                       (history w ++ [IOEvent c r1 None]) (log_records w) (spawned w)) ∧
       pool (register_batch k vifs r1) k = pool (regs w) k ++ (vif_id <$> vifs) ∧
       ∀ v, v ∈ vifs → is_Some (_existing_vifs (register_batch k vifs r1) !! vif_id v)
   | (inl e, p') =>
       BaseVIFPool._populate_pool CONF now k p s w =
         (Raised e, World r1 p' (history w ++ [IOEvent c r1 (Some e)])
                      (log_records w) (spawned w))
   end) ∧
  (¬ pool_size (regs w) k < ports_pool_min CONF →
   BaseVIFPool._populate_pool CONF now k p s w =
     (Return tt, World r1 (provider w) (history w) (log_records w) (spawned w))) ∧
  (ports_pool_min CONF = 5 → ports_pool_batch CONF = 10 →
   pool_size (regs w) k = 0 → n = 10).
Proof.
  intros Hge. cbv zeta. split_and!.
  - unfold note_update, set_last_update; cbn. apply lookup_insert_eq.
  - intros Hlt. rewrite populate_pool_run by done. cbv zeta.
    rewrite bool_decide_eq_true_2 by done.
    destruct (request_vifs _ _ _ _ _ _) as [[e|vifs] p']; [done|].
    split_and!; [done| |].
    + by rewrite register_batch_pool.
    + intros v Hv. by apply register_batch_existing_new.
  - intros Hnlt. rewrite populate_pool_run by done. cbv zeta.
    by rewrite bool_decide_eq_false_2.
  - intros -> -> ->. done.
Qed.

(** C7. A request on an empty pool raises [ResourceNotReady]; no pool
    changes its content, the other dictionaries are unchanged, no call is
    made, and one greenthread running [_populate_pool] for the key is
    spawned. A run of [_populate_pool] entered less than
    [ports_pool_update_frequency] after the last one for the key returns
    with the dictionaries, the Neutron side and the call history unchanged;
    so after any run at [now1] that was not skipped, a run at [now2] with
    [now2 - ports_pool_update_frequency < now1] makes no call. *)
Theorem empty_pool_request_and_debounce d w p project s sgs host :
  host_address p = Some host →
  pool (regs w) (host, project, sgs) = [] →
  (∃ w', request_vif CONF d p project s sgs w = (Raised ResourceNotReady, w') ∧
     (∀ k', pool (regs w') k' = pool (regs w) k') ∧
     _existing_vifs (regs w') = _existing_vifs (regs w) ∧
     _recyclable_ports (regs w') = _recyclable_ports (regs w) ∧
     _last_update (regs w') = _last_update (regs w) ∧
     _known_trunk_ids (regs w') = _known_trunk_ids (regs w) ∧
     provider w' = provider w ∧ history w' = history w ∧
     spawned w' = spawned w ++ [Spawn_populate_pool (host, project, sgs) p s]) ∧
  (∀ now k p0 s0 w0,
     now - ports_pool_update_frequency CONF
       < default 0 (_last_update (regs w0) !! k) →
     let r := BaseVIFPool._populate_pool CONF now k p0 s0 w0 in
     r.1 = Return tt ∧ regs r.2 = regs w0 ∧ provider r.2 = provider w0 ∧
     history r.2 = history w0) ∧
  (∀ now1 now2 k p1 s1 p2 s2 w0,
     ¬ (now1 - ports_pool_update_frequency CONF
        < default 0 (_last_update (regs w0) !! k)) →
     now2 - ports_pool_update_frequency CONF < now1 →
     let w1 := (BaseVIFPool._populate_pool CONF now1 k p1 s1 w0).2 in
     let w2 := (BaseVIFPool._populate_pool CONF now2 k p2 s2 w1).2 in
     regs w2 = regs w1 ∧ provider w2 = provider w1 ∧ history w2 = history w1).
Proof.
  intros Hh Hk. split_and!.
  - pose proof (request_vif_empty_pool_wp CONF d w p project s sgs host Hh Hk) as Hwp.
    unfold wp in Hwp. destruct (request_vif CONF d p project s sgs w) as [o w'].
    cbn [fst snd] in Hwp. destruct Hwp as [Ho Hrest]. subst o. by exists w'.
  - intros now k p0 s0 w0 Hlt. cbv zeta. by rewrite populate_pool_skip.
  - intros now1 now2 k p1 s1 p2 s2 w0 Hge Hlt. cbv zeta.
    assert (Hlast : _last_update
              (regs (BaseVIFPool._populate_pool CONF now1 k p1 s1 w0).2) !! k
            = Some now1).
    { rewrite populate_pool_run by done. cbv zeta.
      case_bool_decide; [|apply lookup_insert_eq].
      destruct (request_vifs _ _ _ _ _ _) as [[e|vifs] p']; cbn [snd regs].
      - apply lookup_insert_eq.
      - rewrite register_batch_last_update. apply lookup_insert_eq. }
    rewrite (populate_pool_skip CONF now2); [done|].
    rewrite Hlast. done.
Qed.

(** C8. In one pass of the [NestedVIFPool] loop body over [(id, k)],
    [delete_port] is called only for [id] and only after [_remove_subport]
    of [id] has returned and [_release_vlan_id] of the VLAN id of [id] has
    returned after it. When [_remove_subport] raises, the pass calls no
    [delete_port]; when what it raises is a [NeutronClientException] the
    pass goes on to the next entry and [id] stays among the recyclable
    ports. *)
Theorem nested_delete_only_after_detach id k w :
  let r := NestedVIFPool.recycle_port CONF (id, k) w in
  ∃ evs, history r.2 = history w ++ evs ∧
    deletes_after_detach id false false evs = true ∧
    ∀ e, detach_raised evs = Some e →
         no_delete_port evs = true ∧
         (e = NeutronClientException →
          r.1 = Continued ∧
          _recyclable_ports (regs r.2) = _recyclable_ports (regs w)).
Proof. apply nested_recycle_events. Qed.

(** C9. When the pop of a request succeeds and the update that binds the
    port to the pod raises, the request raises the same exception and the
    port is not put back: the pool has lost it, the other pools,
    [_existing_vifs] and [_recyclable_ports] are as before. So in a state
    that satisfies invariant 1 and registers its ports, the port is then in
    no pool and not recyclable, and still in [_existing_vifs]. *)
Theorem bind_failure_leaves_port_in_use d w p project s sgs host body l id e p' :
  host_address p = Some host →
  bind_body d p = Some body →
  pool (regs w) (host, project, sgs) = l ++ [id] →
  update_port id body (provider w) = (inl e, p') →
  at_most_one (regs w) →
  registered (regs w) →
  let r := request_vif CONF d p project s sgs w in
  r.1 = Raised e ∧
  pool (regs r.2) (host, project, sgs) = l ∧
  (∀ k', (host, project, sgs) ≠ k' → pool (regs r.2) k' = pool (regs w) k') ∧
  _existing_vifs (regs r.2) = _existing_vifs (regs w) ∧
  _recyclable_ports (regs r.2) = _recyclable_ports (regs w) ∧
  in_use (regs r.2) id ∧
  is_Some (_existing_vifs (regs r.2) !! id).
Proof.
  intros Hh Hb Hk Hupd (Hnd & Huniq & Hdisj) [Hreg _]. cbv zeta.
  pose proof (request_vif_bind_failure CONF d w p project s sgs host body l id e p'
                Hh Hb Hk Hupd) as Hwp.
  unfold wp in Hwp. destruct (request_vif CONF d p project s sgs w) as [o w'].
  cbn [fst snd] in *. destruct Hwp as (Ho & Hl & Hne & Hex & Hrec & _). subst o.
  assert (Hin : id ∈ pool (regs w) (host, project, sgs)).
  { rewrite Hk, elem_of_app, list_elem_of_singleton. by right. }
  split_and!; try done.
  - split.
    + intros k' Hin'. destruct (decide ((host, project, sgs) = k')) as [<-|Hkk].
      * rewrite Hl in Hin'. specialize (Hnd (host, project, sgs)).
        rewrite Hk in Hnd. apply NoDup_app in Hnd as (_ & Hnot & _).
        apply (Hnot id Hin'), list_elem_of_singleton. done.
      * rewrite Hne in Hin' by done. by destruct (Hkk (Huniq _ _ _ Hin Hin')).
    + rewrite Hrec. by apply (Hdisj (host, project, sgs)).
  - rewrite Hex. by apply (Hreg (host, project, sgs)).
Qed.

(** C10. For a pod whose status has no [hostIP], [release_vif] raises
    [KeyError] and leaves everything as it was: the dictionaries, and the
    log, to which nothing is written. [request_vif] raises the same
    [KeyError] for such a pod but logs a warning first. *)
Theorem release_unscheduled_raises_untouched d w p v project s sgs :
  host_address p = None →
  BaseVIFPool.release_vif p v project sgs w = (Raised KeyError, w) ∧
  request_vif CONF d p project s sgs w =
    (Raised KeyError,
     World (regs w) (provider w) (history w)
           (log_records w ++ [(WARNING, "Pod has not been scheduled yet.")])
           (spawned w)).
Proof.
  intros Hh. split.
  - by apply release_vif_not_scheduled.
  - by apply request_vif_not_scheduled.
Qed.
End claims.

(** ** The claims on the example runs *)

Lemma ex_populated_fresh failing : provider_fresh (init_world (ex_neutron failing)).
Proof. apply scripted_fresh_b_true. vm_compute. reflexivity. Qed.

Lemma ex_released_reachable d : reachable ex_conf d ex_released.
Proof.
  apply reach_release; [apply reach_init|].
  apply in_use_b_true. vm_compute. reflexivity.
Qed.

Lemma over_world_reachable : reachable over_conf Neutron over_world.
Proof.
  unfold over_world. cbv zeta.
  apply reach_release; [apply reach_request, reach_populate; [apply reach_init|]|].
  - apply scripted_fresh_b_true. vm_compute. reflexivity.
  - apply in_use_b_true. vm_compute. reflexivity.
Qed.

Lemma reachable_at_most_one_witness :
  reachable full_conf Nested (full_world Nested []) ∧
  at_most_one (regs (full_world Nested [])).
Proof.
  split; [apply full_world_reachable|].
  apply (reachable_at_most_one full_conf Nested), full_world_reachable.
Defined.

(** The claim C4 as it was stated fails: [r9] waits to be recycled, the
    pool has room, the update that cleans [r9] raises a
    [NeutronClientException], and after the pass [r9] is still among the
    recyclable ports. *)
Lemma failed_clean_keeps_entry :
  let r := recycle_port ex_conf Neutron ("r9", ex_key) ex_released in
  reachable ex_conf Neutron ex_released ∧
  _recyclable_ports (regs ex_released) !! "r9" = Some ex_key ∧
  BaseVIFPool.pool_has_room ex_conf (pool_size (regs ex_released) ex_key) = true ∧
  ev_raised <$> new_events ex_released r.2 = [Some NeutronClientException] ∧
  r.1 = Continued ∧
  _recyclable_ports (regs r.2) !! "r9" = Some ex_key ∧
  ¬ (_recyclable_ports (regs r.2) !! "r9" = None).
Proof.
  cbv zeta. split_and!; [apply ex_released_reachable|vm_compute; reflexivity..|].
  vm_compute. discriminate.
Qed.

Lemma clean_attempt_outcome_witness :
  BaseVIFPool.pool_has_room ex_conf (pool_size (regs ex_released) ex_key) = true ∧
  _recyclable_ports (regs ex_released) !! "r9" = Some ex_key ∧
  (recycle_port ex_conf Nested ("r9", ex_key) ex_released).1 = Continued.
Proof.
  assert (H1 : BaseVIFPool.pool_has_room ex_conf
                 (pool_size (regs ex_released) ex_key) = true)
    by (vm_compute; reflexivity).
  assert (H2 : _recyclable_ports (regs ex_released) !! "r9" = Some ex_key)
    by (vm_compute; reflexivity).
  split; [exact H1|split; [exact H2|]].
  rewrite (clean_attempt_outcome ex_conf Nested "r9" ex_key ex_released H1 H2).
  vm_compute. reflexivity.
Defined.

(** The claim C5 as it was stated fails: with a maximum of 4 and batches
    of 10, [_populate_pool] fills the empty pool with 10 ports; [q10] is
    requested and released; the pass of the recycling loop returns, having
    deleted [q10], and the pool holds 9 ports. *)
Lemma cycle_leaves_pool_above_max :
  let r := recycle_cycle over_conf Neutron over_world in
  reachable over_conf Neutron over_world ∧
  ports_pool_max over_conf = 4 ∧
  r.1 = Return tt ∧
  ev_call <$> new_events over_world r.2 = [Call_delete_port "q10"] ∧
  pool_size (regs r.2) ex_key = 9 ∧
  ¬ (pool_size (regs r.2) ex_key ≤ ports_pool_max over_conf).
Proof.
  cbv zeta. split_and!; [apply over_world_reachable|vm_compute; reflexivity..|].
  vm_compute. intros H. apply H. reflexivity.
Qed.

Lemma recycle_cycle_respects_max_witness :
  0 < ports_pool_max full_conf ∧
  pool_size (regs (recycle_cycle full_conf Neutron (full_world Neutron [])).2) ex_key
    ≤ Z.max (ports_pool_max full_conf) (pool_size (regs (full_world Neutron [])) ex_key).
Proof.
  assert (H : 0 < ports_pool_max full_conf) by (vm_compute; reflexivity).
  split; [exact H|].
  exact (proj1 (recycle_cycle_respects_max full_conf Neutron (full_world Neutron [])
                  ex_key H)).
Defined.

(** The claim C6 as it was stated fails: the pool holds 10 ports, the
    minimum is 5 and the last run is 100 seconds old; [_populate_pool]
    returns without a call to the VIF driver, where the claim has it ask
    for [max(10, 5 - 10) = 10] ports. *)
Lemma populate_stocked_pool_asks_nothing :
  let r := BaseVIFPool._populate_pool default_conf 200 ex_key ex_pod [] stocked_world in
  ¬ (200 - ports_pool_update_frequency default_conf
     < default 0 (_last_update (regs stocked_world) !! ex_key)) ∧
  pool_size (regs stocked_world) ex_key = 10 ∧
  Z.max (ports_pool_batch default_conf)
        (ports_pool_min default_conf - pool_size (regs stocked_world) ex_key) = 10 ∧
  r.1 = Return tt ∧
  new_events stocked_world r.2 = [] ∧
  pool_size (regs r.2) ex_key = 10 ∧
  _last_update (regs r.2) !! ex_key = Some 200.
Proof.
  cbv zeta. split_and!; [vm_compute; discriminate|vm_compute; reflexivity..].
Qed.

Lemma populate_pool_replenishes_witness :
  ¬ (100 - ports_pool_update_frequency default_conf
     < default 0 (_last_update (regs (init_world over_neutron)) !! ex_key)) ∧
  _last_update (note_update ex_key 100 (regs (init_world over_neutron))) !! ex_key
    = Some 100.
Proof.
  assert (H : ¬ (100 - ports_pool_update_frequency default_conf
                 < default 0 (_last_update (regs (init_world over_neutron)) !! ex_key)))
    by (vm_compute; discriminate).
  split; [exact H|].
  exact (proj1 (populate_pool_replenishes default_conf 100 ex_key ex_pod []
                  (init_world over_neutron) H)).
Defined.

Lemma empty_pool_request_and_debounce_witness :
  host_address ex_pod = Some "h1" ∧
  pool (regs (init_world (ex_neutron []))) ("h1", "p1", ["sgA"]) = [] ∧
  (request_vif ex_conf Neutron ex_pod "p1" [] ["sgA"] (init_world (ex_neutron []))).1
    = Raised ResourceNotReady.
Proof.
  assert (H1 : host_address ex_pod = Some "h1") by (vm_compute; reflexivity).
  assert (H2 : pool (regs (init_world (ex_neutron []))) ("h1", "p1", ["sgA"]) = [])
    by reflexivity.
  split; [exact H1|split; [exact H2|]].
  destruct (proj1 (empty_pool_request_and_debounce ex_conf Neutron
                     (init_world (ex_neutron [])) ex_pod "p1" [] ["sgA"] "h1" H1 H2))
    as (w' & Heq & _).
  rewrite Heq. reflexivity.
Defined.

Lemma ex_populated_at_most_one failing : at_most_one (regs (ex_populated failing)).
Proof.
  apply populate_pool_at_most_one; [apply ex_populated_fresh|apply at_most_one_init].
Qed.

Lemma bind_failure_leaves_port_in_use_witness :
  let w := ex_populated [("r3", Exception)] in
  let body := PortUpdate "pod-1" (Some "uid-1") None in
  host_address ex_pod = Some "h1" ∧
  bind_body Neutron ex_pod = Some body ∧
  pool (regs w) ("h1", "p1", ["sgA"]) = ["r1"; "r2"] ++ ["r3"] ∧
  update_port "r3" body (provider w) = (inl Exception, provider w) ∧
  at_most_one (regs w) ∧
  registered (regs w) ∧
  in_use (regs (request_vif ex_conf Neutron ex_pod "p1" [] ["sgA"] w).2) "r3".
Proof.
  cbv zeta.
  assert (H1 : host_address ex_pod = Some "h1") by (vm_compute; reflexivity).
  assert (H2 : bind_body Neutron ex_pod
               = Some (PortUpdate "pod-1" (Some "uid-1") None))
    by (vm_compute; reflexivity).
  assert (H3 : pool (regs (ex_populated [("r3", Exception)])) ("h1", "p1", ["sgA"])
               = ["r1"; "r2"] ++ ["r3"]) by (vm_compute; reflexivity).
  assert (H4 : update_port "r3" (PortUpdate "pod-1" (Some "uid-1") None)
                 (provider (ex_populated [("r3", Exception)]))
               = (inl Exception, provider (ex_populated [("r3", Exception)])))
    by (vm_compute; reflexivity).
  assert (H5 : at_most_one (regs (ex_populated [("r3", Exception)])))
    by apply ex_populated_at_most_one.
  assert (H6 : registered (regs (ex_populated [("r3", Exception)])))
    by (apply registered_b_true; vm_compute; reflexivity).
  split_and!; [done..|].
  apply (bind_failure_leaves_port_in_use ex_conf Neutron _ _ _ _ _ _ _ _ _ _ _
           H1 H2 H3 H4 H5 H6).
Defined.

Lemma release_unscheduled_raises_untouched_witness :
  host_address ex_unscheduled_pod = None ∧
  BaseVIFPool.release_vif ex_unscheduled_pod (ex_vif "r1") "p1" ["sgA"]
    (ex_populated []) = (Raised KeyError, ex_populated []).
Proof.
  assert (H : host_address ex_unscheduled_pod = None) by (vm_compute; reflexivity).
  split; [exact H|].
  exact (proj1 (release_unscheduled_raises_untouched ex_conf Neutron (ex_populated [])
                  ex_unscheduled_pod (ex_vif "r1") "p1" [] ["sgA"] H)).
Defined.

(** * Further properties of the pool drivers

    Exact runs of [request_vif] and [release_vif], the round trip of a
    port, whole passes of the recycling loop, the second invariant, and
    the branch that deletes ports in both drivers. *)

Section request_paths.
Context {P : Type} `{!VIFProvider P}.
Variable CONF : vif_pool_conf.
Implicit Types (w : world P) (r : registries) (k : pool_key) (id : port_id).

(** The run of a request that finds a port and binds it. *)
Lemma request_vif_bound d w p project s sgs host body l id p' :
  host_address p = Some host →
  bind_body d p = Some body →
  pool (regs w) (host, project, sgs) = l ++ [id] →
  update_port id body (provider w) = (inr tt, p') →
  let k := (host, project, sgs) in
  let entry := default EmptyDefaultdict (_existing_vifs (regs w) !! id) in
  request_vif CONF d p project s sgs w =
    (Return entry,
     World (Registries (<[k := l]> (_available_ports_pools (regs w)))
                       (<[id := entry]> (_existing_vifs (regs w)))
                       (_recyclable_ports (regs w)) (_last_update (regs w))
                       (_known_trunk_ids (regs w)))
           p'
           (history w ++
            [IOEvent (Call_update_port id body)
               (Registries (<[k := l]> (_available_ports_pools (regs w)))
                           (_existing_vifs (regs w)) (_recyclable_ports (regs w))
                           (_last_update (regs w)) (_known_trunk_ids (regs w)))
               None])
           (log_records w)
           (spawned w ++
            if bool_decide (Z.of_nat (length l) < ports_pool_min CONF)
            then [Spawn_populate_pool k p s] else [])).
Proof.
  intros Hh Hb Hk Hupd. cbv zeta. apply wp_eq.
  unfold bind_body in Hb.
  destruct (p !! "metadata" ≫= λ m, m !! "name") as [name|] eqn:Hname; [|done].
  cbn [mbind option_bind] in Hb.
  destruct d; unfold_drivers.
  2: injection Hb as <-.
  1: destruct (p !! "metadata" ≫= λ m, m !! "uid") as [uid|] eqn:Huid; [|done];
     cbn [mbind option_bind] in Hb; injection Hb as <-.
  all: wp_step; wp_step; wp_step.
  all: unfold host_address in Hh; rewrite Hh.
  all: wp_unfold; wp_simpl.
  all: do 5 wp_step.
  all: rewrite Hk, pop_last_snoc.
  all: do 5 wp_step.
  all: rewrite Hname.
  1: do 2 wp_step; rewrite Huid.
  all: wp_step.
  all: apply wp_io; intros a p'' Hupd'; wp_simpl; rewrite Hupd in Hupd'; [|discriminate];
    injection Hupd' as <- <-.
  all: wp_simpl.
  all: do 4 wp_step.
  all: rewrite pool_insert_eq.
  all: case_bool_decide; repeat wp_step.
  all: try match goal with
           | H : _existing_vifs _ !! _ = _ |- _ => rewrite H
           end.
  all: rewrite ?app_nil_r; cbn [default from_option]; unfold Datatypes.id.
  all: try done.
  all: match goal with
       | H : _existing_vifs _ !! _ = Some _ |- _ => by rewrite (insert_id _ _ _ H)
       end.
Qed.

(** X1. A request on a pool that holds ports, for a pod with its metadata,
    when the update that binds the port returns: the port appended last is
    the one taken; one [update_port] call is made for it, after the pop;
    [_populate_pool] is spawned exactly when fewer than [ports_pool_min]
    ports are left; the request returns what [_existing_vifs] holds under
    the id, and for an id that has no entry it stores and returns an empty
    defaultdict. *)
Theorem request_vif_success d w p project s sgs host body l id p' :
  host_address p = Some host →
  bind_body d p = Some body →
  pool (regs w) (host, project, sgs) = l ++ [id] →
  update_port id body (provider w) = (inr tt, p') →
  let k := (host, project, sgs) in
  let entry := default EmptyDefaultdict (_existing_vifs (regs w) !! id) in
  request_vif CONF d p project s sgs w =
    (Return entry,
     World (Registries (<[k := l]> (_available_ports_pools (regs w)))
                       (<[id := entry]> (_existing_vifs (regs w)))
                       (_recyclable_ports (regs w)) (_last_update (regs w))
                       (_known_trunk_ids (regs w)))
           p'
           (history w ++
            [IOEvent (Call_update_port id body)
               (Registries (<[k := l]> (_available_ports_pools (regs w)))
                           (_existing_vifs (regs w)) (_recyclable_ports (regs w))
                           (_last_update (regs w)) (_known_trunk_ids (regs w)))
               None])
           (log_records w)
           (spawned w ++
            if bool_decide (Z.of_nat (length l) < ports_pool_min CONF)
            then [Spawn_populate_pool k p s] else [])).
Proof. apply request_vif_bound. Qed.
End request_paths.

Section request_paths2.
Context {P : Type} `{!VIFProvider P}.
Variable CONF : vif_pool_conf.
Implicit Types (w : world P) (r : registries) (k : pool_key) (id : port_id).

(** X2. A request for a pod whose metadata lack the name (or, for
    [NeutronVIFPool], the uid) raises [KeyError] after the pop: the port is
    gone from its pool, no call is made to Neutron and nothing else
    changes. *)
Theorem request_vif_missing_metadata d w p project s sgs host l id :
  host_address p = Some host →
  bind_body d p = None →
  pool (regs w) (host, project, sgs) = l ++ [id] →
  request_vif CONF d p project s sgs w =
    (Raised KeyError,
     World (Registries (<[(host, project, sgs) := l]> (_available_ports_pools (regs w)))
                       (_existing_vifs (regs w)) (_recyclable_ports (regs w))
                       (_last_update (regs w)) (_known_trunk_ids (regs w)))
           (provider w) (history w) (log_records w) (spawned w)).
Proof.
  intros Hh Hb Hk. apply wp_eq.
  unfold bind_body in Hb.
  destruct d; unfold_drivers.
  all: wp_step; wp_step; wp_step.
  all: unfold host_address in Hh; rewrite Hh.
  all: wp_unfold; wp_simpl.
  all: do 5 wp_step.
  all: rewrite Hk, pop_last_snoc.
  all: do 5 wp_step.
  all: destruct (p !! "metadata" ≫= λ m, m !! "name") as [name|] eqn:Hname;
    cbn [mbind option_bind] in Hb; [|done].
  2: done.
  do 2 wp_step.
  destruct (p !! "metadata" ≫= λ m, m !! "uid") as [uid|] eqn:Huid;
    cbn [mbind option_bind] in Hb; done.
Qed.

(** X3. A request on an empty pool, exactly: [ResourceNotReady] is raised,
    the pool key now has an entry holding the empty list (the lookup of the
    defaultdict), a warning is logged, one [_populate_pool] is spawned and
    no call is made. *)
Theorem request_vif_empty_pool_exact d w p project s sgs host :
  host_address p = Some host →
  pool (regs w) (host, project, sgs) = [] →
  request_vif CONF d p project s sgs w =
    (Raised ResourceNotReady,
     World (Registries (<[(host, project, sgs) := []]> (_available_ports_pools (regs w)))
                       (_existing_vifs (regs w)) (_recyclable_ports (regs w))
                       (_last_update (regs w)) (_known_trunk_ids (regs w)))
           (provider w) (history w)
           (log_records w ++ [(WARNING, "Ports pool does not have available ports!")])
           (spawned w ++ [Spawn_populate_pool (host, project, sgs) p s])).
Proof.
  intros Hh Hk. apply wp_eq.
  destruct d; unfold_drivers.
  all: wp_step; wp_step; wp_step.
  all: unfold host_address in Hh; rewrite Hh.
  all: wp_unfold; wp_simpl.
  all: do 5 wp_step.
  all: rewrite Hk; cbn [pop_last reverse rev_append].
  all: by repeat wp_step.
Qed.

(** X4. [release_vif] for a scheduled pod returns, with the port queued
    under the pool key of this release whatever was queued for it before;
    a vif object already stored under the id is kept, a missing entry or an
    empty defaultdict is replaced by the released vif; the entries of other
    ports, the pools, [_last_update], the Neutron side, the call history,
    the log and the spawned greenthreads are untouched. *)
Theorem release_vif_queues_port w p v project sgs host :
  host_address p = Some host →
  let r := BaseVIFPool.release_vif p v project sgs w in
  let id := vif_id v in
  r.1 = Return tt ∧
  _recyclable_ports (regs r.2) !! id = Some (host, project, sgs) ∧
  (∀ v0, _existing_vifs (regs w) !! id = Some (VifObject v0) →
         _existing_vifs (regs r.2) !! id = Some (VifObject v0)) ∧
  (truthy (_existing_vifs (regs w) !! id) = false →
   _existing_vifs (regs r.2) !! id = Some (VifObject v)) ∧
  (∀ id', id' ≠ id →
     _recyclable_ports (regs r.2) !! id' = _recyclable_ports (regs w) !! id' ∧
     _existing_vifs (regs r.2) !! id' = _existing_vifs (regs w) !! id') ∧
  _available_ports_pools (regs r.2) = _available_ports_pools (regs w) ∧
  _last_update (regs r.2) = _last_update (regs w) ∧
  provider r.2 = provider w ∧ history r.2 = history w ∧
  log_records r.2 = log_records w ∧ spawned r.2 = spawned w.
Proof.
  intros Hh. cbv zeta. rewrite (release_vif_run w p v project sgs host Hh).
  cbn [fst snd regs provider history log_records spawned _recyclable_ports
       _existing_vifs _available_ports_pools _last_update].
  split_and!; try done.
  - apply lookup_insert_eq.
  - intros v0 Hv0. by rewrite Hv0.
  - intros Hf. rewrite Hf. apply lookup_insert_eq.
  - intros id' Hne. split; [by rewrite lookup_insert_ne|].
    destruct (truthy _); [done|]. by rewrite lookup_insert_ne.
Qed.
End request_paths2.

Section round_trip.
Context {P : Type} `{!VIFProvider P}.
Variable CONF : vif_pool_conf.
Implicit Types (w : world P) (r : registries) (k : pool_key) (id : port_id).

(** X5. Round trip: a port is requested, released by the same pod and
    recycled while its pool has room, Neutron accepting both updates. Then
    every pool holds what it held before the request, the port again last
    in its pool, [_existing_vifs], [_recyclable_ports] and [_last_update]
    are as before, and the calls made are the binding update and the
    cleaning update of that port. *)
Theorem request_release_recycle_round_trip
    d w p project s sgs host body l id v p1 p2 :
  host_address p = Some host →
  bind_body d p = Some body →
  pool (regs w) (host, project, sgs) = l ++ [id] →
  _existing_vifs (regs w) !! id = Some (VifObject v) →
  vif_id v = id →
  _recyclable_ports (regs w) !! id = None →
  BaseVIFPool.pool_has_room CONF (Z.of_nat (length l)) = true →
  update_port id body (provider w) = (inr tt, p1) →
  update_port id (clean_body d (host, project, sgs)) p1 = (inr tt, p2) →
  let w1 := (request_vif CONF d p project s sgs w).2 in
  let w2 := (BaseVIFPool.release_vif p v project sgs w1).2 in
  let r := recycle_port CONF d (id, (host, project, sgs)) w2 in
  r.1 = Return tt ∧
  (∀ k', pool (regs r.2) k' = pool (regs w) k') ∧
  _existing_vifs (regs r.2) = _existing_vifs (regs w) ∧
  _recyclable_ports (regs r.2) = _recyclable_ports (regs w) ∧
  _last_update (regs r.2) = _last_update (regs w) ∧
  ev_call <$> new_events w r.2
    = [Call_update_port id body;
       Call_update_port id (clean_body d (host, project, sgs))].
Proof.
  intros Hh Hb Hk Hex Hv Hrec Hroom Hbind Hclean. cbv zeta. subst id.
  rewrite (request_vif_bound CONF d w p project s sgs host body l (vif_id v) p1)
    by done.
  cbv zeta. rewrite Hex. cbn [snd default from_option]. unfold Datatypes.id.
  rewrite (release_vif_run _ p v project sgs host) by done.
  cbn [snd regs provider history log_records spawned _available_ports_pools
       _existing_vifs _recyclable_ports _last_update _known_trunk_ids].
  rewrite lookup_insert_eq. cbn [truthy].
  rewrite recycle_port_clean; cbn [regs provider history log_records spawned
       _available_ports_pools _existing_vifs _recyclable_ports _last_update
       _known_trunk_ids].
  - rewrite Hclean. cbv zeta. cbn [fst snd regs history _existing_vifs
      _recyclable_ports _last_update].
    split_and!; try done.
    + intros k'. destruct (decide ((host, project, sgs) = k')) as [<-|Hne].
      * by rewrite !pool_insert_eq.
      * rewrite pool_insert_ne by done. by rewrite lookup_insert_ne.
    + by apply insert_id.
    + rewrite delete_insert_eq. by apply delete_id.
    + unfold new_events. cbn [history]. rewrite <- !app_assoc.
      by rewrite drop_app_length.
  - unfold pool_size. by rewrite pool_insert_eq.
  - apply lookup_insert_eq.
Qed.
End round_trip.

Section cycles.
Context {P : Type} `{!VIFProvider P}.
Variable CONF : vif_pool_conf.
Implicit Types (w : world P) (r : registries) (k : pool_key) (id : port_id).

Lemma wp_for_each_rest {A} (I : list A → world P → Prop) (body : A → M P unit) xs w :
  I xs w →
  (∀ x xs' w1, I (x :: xs') w1 → wp (body x) (λ _ w2, I xs' w2) w1) →
  wp (for_each xs body) (λ _ w', ∃ rest, I rest w') w.
Proof.
  intros Hw Hbody. revert w Hw. induction xs as [|x xs IH]; intros w Hw.
  - by exists [].
  - unfold wp in *. cbn [for_each].
    specialize (Hbody x xs w Hw). destruct (body x w) as [[[]|e|] w1]; simpl in *;
      eauto.
Qed.

Lemma pool_has_room_unlimited n :
  ports_pool_max CONF = 0 → BaseVIFPool.pool_has_room CONF n = true.
Proof.
  intros Hmax. unfold BaseVIFPool.pool_has_room.
  by rewrite bool_decide_eq_true_2.
Qed.

Lemma recycle_port_unlimited d id k w :
  ports_pool_max CONF = 0 →
  wp (recycle_port CONF d (id, k)) (λ _ w',
    _existing_vifs (regs w') = _existing_vifs (regs w) ∧
    _known_trunk_ids (regs w') = _known_trunk_ids (regs w) ∧
    ∃ ev, history w' = history w ++ [ev] ∧ ev_call ev = Call_update_port id (clean_body d k)) w.
Proof.
  intros Hmax. destruct d; unfold_drivers; unfold clean_body.
  all: wp_unfold; wp_simpl.
  all: do 4 wp_step.
  all: rewrite pool_has_room_unlimited by done; cbv iota.
  all: repeat wp_step.
  all: split_and!; [done..|by eexists].
Qed.

(** X6. With [ports_pool_max = 0] a pass of the recycling loop over all
    recyclable ports, in either driver and whatever Neutron answers, makes
    only [update_port] calls: nothing is deleted from [_existing_vifs], no
    trunk is looked up. *)
Theorem unlimited_pool_never_deletes d w :
  ports_pool_max CONF = 0 →
  let w' := (recycle_cycle CONF d w).2 in
  _existing_vifs (regs w') = _existing_vifs (regs w) ∧
  _known_trunk_ids (regs w') = _known_trunk_ids (regs w) ∧
  history w' = history w ++ new_events w w' ∧
  Forall is_update_port (new_events w w').
Proof.
  intros Hmax. cbv zeta. rewrite recycle_cycle_unfold.
  cut (wp (for_each (map_to_list (_recyclable_ports (regs w))) (recycle_port CONF d))
          (λ _ w', _existing_vifs (regs w') = _existing_vifs (regs w) ∧
                   _known_trunk_ids (regs w') = _known_trunk_ids (regs w) ∧
                   ∃ evs, history w' = history w ++ evs ∧ Forall is_update_port evs) w).
  { unfold wp. intros (Hex & Htr & evs & Hh & Hev). split_and!; [done..| |].
    - unfold new_events. by rewrite Hh, drop_app_length.
    - unfold new_events. by rewrite Hh, drop_app_length. }
  apply (wp_for_each (λ w', _existing_vifs (regs w') = _existing_vifs (regs w) ∧
                            _known_trunk_ids (regs w') = _known_trunk_ids (regs w) ∧
                            ∃ evs, history w' = history w ++ evs ∧
                                   Forall is_update_port evs)).
  - split_and!; [done..|]. exists []. by rewrite app_nil_r.
  - intros [id k] w1 (Hex & Htr & evs & Hh & Hev).
    eapply wp_mono; [by apply recycle_port_unlimited|].
    intros o w2 (Hex' & Htr' & ev & Hh' & Hc). cbv beta.
    split_and!; [congruence..|].
    exists (evs ++ [ev]). split; [by rewrite Hh', Hh, app_assoc|].
    apply Forall_app. split; [done|]. apply Forall_singleton. by eexists _, _.
Qed.

Lemma recycle_port_rest d id k w (rest : list (port_id * pool_key)) :
  _recyclable_ports (regs w) !! id = Some k →
  id ∉ rest.*1 →
  (∀ id' k', (id', k') ∈ rest → _recyclable_ports (regs w) !! id' = Some k') →
  at_most_one (regs w) →
  wp (recycle_port CONF d (id, k)) (λ _ w',
    at_most_one (regs w') ∧
    ∀ id' k', (id', k') ∈ rest → _recyclable_ports (regs w') !! id' = Some k') w.
Proof.
  intros Hid Hnin Hrest Hinv.
  eapply wp_mono; [apply recycle_port_effect|]. intros o w' Heff. cbv beta in *.
  split; [by eapply at_most_one_recycle|].
  intros id' k' Hin.
  assert (id ≠ id').
  { intros ->. apply Hnin. apply list_elem_of_fmap. by exists (id', k'). }
  destruct Heff as [[_ [-> | ->]]|(_ & _ & _ & -> & _)]; rewrite ?lookup_delete_ne by done;
    by apply Hrest.
Qed.

(** X8. A whole pass of the recycling loop keeps invariant 1: every entry
    of the copy it iterates over is still in [_recyclable_ports] when its
    turn comes, whatever happened to the entries before it. *)
Theorem recycle_cycle_at_most_one d w :
  at_most_one (regs w) → at_most_one (regs (recycle_cycle CONF d w).2).
Proof.
  intros Hinv. rewrite recycle_cycle_unfold.
  cut (wp (for_each (map_to_list (_recyclable_ports (regs w))) (recycle_port CONF d))
          (λ _ w', ∃ rest : list (port_id * pool_key),
             at_most_one (regs w') ∧ NoDup rest.*1 ∧
             ∀ id k, (id, k) ∈ rest → _recyclable_ports (regs w') !! id = Some k) w).
  { unfold wp. by intros (rest & ? & _). }
  apply (wp_for_each_rest (λ rest w', at_most_one (regs w') ∧ NoDup rest.*1 ∧
           ∀ id k, (id, k) ∈ rest → _recyclable_ports (regs w') !! id = Some k)).
  - split_and!; [done|apply NoDup_fst_map_to_list|].
    intros id k. by rewrite elem_of_map_to_list.
  - intros [id k] rest w1 (Hinv1 & Hnd & Hrest). cbn [fmap list_fmap] in Hnd.
    apply NoDup_cons in Hnd as [Hnin Hnd].
    eapply wp_mono; [apply (recycle_port_rest d id k w1 rest)|]; try done.
    + apply Hrest. by left.
    + intros id' k' Hin. apply Hrest. by right.
    + intros o w2 [Hinv2 Hrest2]. by split_and!.
Qed.
End cycles.

Section drain.
Context {P : Type} `{!VIFProvider P}.
Variable CONF : vif_pool_conf.
Implicit Types (w : world P) (r : registries) (k : pool_key) (id : port_id).

Lemma wp_for_each_all {A} (I : list A → world P → Prop) (body : A → M P unit) xs w :
  I xs w →
  (∀ x xs' w1, I (x :: xs') w1 → wp (body x) (λ o w2, o = Return tt ∧ I xs' w2) w1) →
  wp (for_each xs body) (λ o w', o = Return tt ∧ I [] w') w.
Proof.
  intros Hw Hbody. revert w Hw. induction xs as [|x xs IH]; intros w Hw; [done|].
  unfold wp in *. cbn [for_each].
  specialize (Hbody x xs w Hw). destruct (body x w) as [[[]|e|] w1]; simpl in *.
  - apply IH, Hbody.
  - by destruct Hbody.
  - by destruct Hbody.
Qed.

Lemma ports_of_cons_eq k id rest : ports_of k ((id, k) :: rest) = id :: ports_of k rest.
Proof. unfold ports_of. by rewrite filter_cons_True. Qed.

Lemma ports_of_cons_ne k k0 id rest :
  k0 ≠ k → ports_of k ((id, k0) :: rest) = ports_of k rest.
Proof. intros. unfold ports_of. by rewrite filter_cons_False. Qed.

(** X7. With [ports_pool_max = 0] and a Neutron that accepts every update,
    a pass of the recycling loop returns with [_recyclable_ports] empty and
    every pool extended by the ports that were queued for its key, in the
    order of the iteration. *)
Theorem unlimited_cycle_drains d w :
  ports_pool_max CONF = 0 →
  (∀ id body p, ∃ p', update_port id body p = (inr tt, p')) →
  let r := recycle_cycle CONF d w in
  r.1 = Return tt ∧
  _recyclable_ports (regs r.2) = ∅ ∧
  ∀ k, pool (regs r.2) k
       = pool (regs w) k ++ ports_of k (map_to_list (_recyclable_ports (regs w))).
Proof.
  intros Hmax Hok. cbv zeta. rewrite recycle_cycle_unfold.
  set (all := map_to_list (_recyclable_ports (regs w))).
  cut (wp (for_each all (recycle_port CONF d))
         (λ o w', o = Return tt ∧
            (∀ id k, _recyclable_ports (regs w') !! id = Some k ↔ (id, k) ∈ []) ∧
            NoDup ([] : list (port_id * pool_key)).*1 ∧
            ∀ k, pool (regs w') k ++ ports_of k [] = pool (regs w) k ++ ports_of k all) w).
  { unfold wp. intros (Ho & Hrec & _ & Hpool). split_and!; [done| |].
    - apply map_empty. intros id.
      destruct (_recyclable_ports _ !! id) as [k|] eqn:Hk; [|done].
      apply Hrec in Hk. by apply elem_of_nil in Hk.
    - intros k. rewrite <- Hpool. unfold ports_of. cbn. by rewrite app_nil_r. }
  apply (wp_for_each_all (λ rest w',
           (∀ id k, _recyclable_ports (regs w') !! id = Some k ↔ (id, k) ∈ rest) ∧
           NoDup rest.*1 ∧
           ∀ k, pool (regs w') k ++ ports_of k rest = pool (regs w) k ++ ports_of k all)).
  - split_and!; [|apply NoDup_fst_map_to_list|done].
    intros id k. unfold all. by rewrite elem_of_map_to_list.
  - intros [id k0] rest w1 (Hrec & Hnd & Hpool). cbn [fmap list_fmap] in Hnd.
    apply NoDup_cons in Hnd as [Hnin Hnd].
    assert (Hid : _recyclable_ports (regs w1) !! id = Some k0) by (apply Hrec; by left).
    unfold wp. rewrite recycle_port_clean; [|by apply pool_has_room_unlimited|done].
    destruct (Hok id (clean_body d k0) (provider w1)) as [p' ->]. cbv zeta.
    cbn [fst snd regs _recyclable_ports]. split_and!; [done| |done|].
    + intros id' k. rewrite lookup_delete. case_decide as Heq.
      * subst id'. split; [done|]. intros Hin. exfalso. apply Hnin.
        apply list_elem_of_fmap. by exists (id, k).
      * rewrite Hrec, elem_of_cons. split; [|by right].
        intros [[=]|?]; [by subst|done].
    + intros k. rewrite <- Hpool. destruct (decide (k0 = k)) as [<-|Hne].
      * by rewrite pool_insert_eq, ports_of_cons_eq, <- app_assoc.
      * by rewrite pool_insert_ne, ports_of_cons_ne.
Qed.
End drain.

Section registration.
Context {P : Type} `{!VIFProvider P}.
Variable CONF : vif_pool_conf.
Implicit Types (w : world P) (r : registries) (k : pool_key) (id : port_id).

Lemma recycle_port_registration d id k w :
  (∀ p e p', delete_port id p = (inl e, p') → e = PortNotFoundClient ∨ e = KeyError) →
  _recyclable_ports (regs w) !! id = Some k →
  wp (recycle_port CONF d (id, k)) (λ _ w',
    let r := regs w in
    let r' := regs w' in
    (_recyclable_ports r' = _recyclable_ports r ∧
     (∀ k', pool r' k' = pool r k') ∧
     ∀ x, is_Some (_existing_vifs r !! x) → is_Some (_existing_vifs r' !! x))
    ∨
    (_recyclable_ports r' = delete id (_recyclable_ports r) ∧
     (∀ x, x ≠ id → is_Some (_existing_vifs r !! x) → is_Some (_existing_vifs r' !! x)) ∧
     ((∀ k', pool r' k' = pool r k') ∨
      (_existing_vifs r' = _existing_vifs r ∧
       pool r' k = pool r k ++ [id] ∧ ∀ k', k ≠ k' → pool r' k' = pool r k')))) w.
Proof.
  intros Hdel Hid. destruct d; unfold_drivers.
  all: wp_go.
  all: cbv zeta.
  all: try congruence.
  all: try (match goal with
            | H : delete_port _ _ = (inl _, _) |- _ =>
                by destruct (Hdel _ _ _ H)
            end).
  all: try (left; split_and!; [done|done|]; intros x Hx; try done;
            by apply lookup_insert_is_Some'; right).
  all: try (right; split_and!; [done| |by left]; intros x Hne Hx; try done;
            by rewrite lookup_delete_ne).
  all: try (right; split_and!; [done|done|right]; split_and!;
            [done|apply pool_insert_eq|intros; by apply pool_insert_ne]).
Qed.

Lemma registered_request r r' :
  request_effect r r' → registered r → registered r'.
Proof.
  intros (Hrec & Hex & Hpool) [Hp Hr]. split.
  - intros k id Hin. apply Hex. destruct Hpool as [Hsame|(k0 & l & id0 & Hk & Hk' & Hne)].
    + rewrite Hsame in Hin. eauto.
    + destruct (decide (k0 = k)) as [<-|Hkk].
      * apply (Hp k0). rewrite Hk, elem_of_app. left. by rewrite <- Hk'.
      * rewrite Hne in Hin by done. eauto.
  - intros id k. rewrite Hrec. eauto.
Qed.

Lemma registered_batch r k now vifs :
  registered r → registered (register_batch k vifs (note_update k now r)).
Proof.
  intros [Hp Hr]. split.
  - intros k' id. destruct (decide (k = k')) as [<-|Hkk].
    + rewrite register_batch_pool.
      intros [Hin|(v & -> & Hv)%list_elem_of_fmap]%elem_of_app.
      * apply register_batch_existing_old. by apply (Hp k).
      * by apply register_batch_existing_new.
    + rewrite register_batch_pool_ne by done. intros Hin.
      apply register_batch_existing_old. by apply (Hp k').
  - intros id k'. rewrite register_batch_recyclable. intros Hid.
    apply register_batch_existing_old. by apply (Hr id k').
Qed.

(** X9. Requests, runs of [_populate_pool] and releases keep invariant 2,
    whatever their outcome: every pooled or recyclable id has an entry in
    [_existing_vifs]. *)
Theorem registered_kept d w :
  registered (regs w) →
  (∀ p project s sgs, registered (regs (request_vif CONF d p project s sgs w).2)) ∧
  (∀ now k p s, registered (regs (BaseVIFPool._populate_pool CONF now k p s w).2)) ∧
  (∀ p v project sgs, registered (regs (BaseVIFPool.release_vif p v project sgs w).2)).
Proof.
  intros Hreg. split_and!.
  - intros p project s sgs. eapply registered_request; [|done].
    apply request_vif_effect.
  - intros now k p s.
    destruct (decide (now - ports_pool_update_frequency CONF
                      < default 0 (_last_update (regs w) !! k))) as [Hlt|Hge].
    + by rewrite populate_pool_skip.
    + rewrite populate_pool_run by done. cbv zeta.
      case_bool_decide; [|done].
      destruct (request_vifs _ _ _ _ _ _) as [[e|vifs] p']; [done|].
      by apply registered_batch.
  - intros p v project sgs. destruct (host_address p) as [host|] eqn:Hh.
    + rewrite (release_vif_run _ _ _ _ _ host) by done. cbn [snd regs].
      destruct Hreg as [Hp Hr]. split.
      * intros k id Hin. cbn [_existing_vifs].
        destruct (truthy _); [by eapply Hp|].
        apply lookup_insert_is_Some'. right. by eapply Hp.
      * intros id k. cbn [_existing_vifs _recyclable_ports].
        destruct (decide (vif_id v = id)) as [<-|Hne].
        -- intros _. destruct (_existing_vifs (regs w) !! vif_id v) as [[v0|]|] eqn:Hv;
             cbn [truthy]; rewrite ?Hv, ?lookup_insert_eq; eauto.
        -- rewrite lookup_insert_ne by done. intros Hid.
           destruct (truthy _); [by eapply Hr|].
           apply lookup_insert_is_Some'. right. by eapply Hr.
    + by rewrite release_vif_not_scheduled.
Qed.

(** X10. A turn of the recycling loop over an entry [(id, k)] keeps
    invariant 2 in either driver provided [delete_port] of this port raises
    nothing but [PortNotFoundClient] or [KeyError], the port being in no
    pool. (C3 shows what happens otherwise.) *)
Theorem registered_kept_by_recycle d id k w :
  (∀ p e p', delete_port id p = (inl e, p') → e = PortNotFoundClient ∨ e = KeyError) →
  _recyclable_ports (regs w) !! id = Some k →
  (∀ k', id ∉ pool (regs w) k') →
  registered (regs w) →
  registered (regs (recycle_port CONF d (id, k) w).2).
Proof.
  intros Hdel Hid Hout [Hp Hr].
  pose proof (recycle_port_registration d id k w Hdel Hid) as Hwp.
  unfold wp in Hwp. cbv zeta in Hwp.
  destruct Hwp as [(Hrec & Hpool & Hex)|(Hrec & Hex & Hpool)].
  - split.
    + intros k' x. rewrite Hpool. intros Hin. apply Hex. by eapply Hp.
    + intros x k'. rewrite Hrec. intros Hx. apply Hex. by eapply Hr.
  - split.
    + intros k' x Hin. destruct Hpool as [Hsame|(Hsame & Hk & Hne)].
      * rewrite Hsame in Hin. apply Hex; [|by eapply Hp].
        intros ->. by apply (Hout k').
      * rewrite Hsame. destruct (decide (k = k')) as [<-|Hkk].
        -- rewrite Hk in Hin. apply elem_of_app in Hin as [Hin|Hin].
           ++ by eapply Hp.
           ++ apply list_elem_of_singleton in Hin as ->. by eapply Hr.
        -- rewrite Hne in Hin by done. by eapply Hp.
    + intros x k'. rewrite Hrec. intros [Hne Hx]%lookup_delete_Some.
      apply Hex; [done|]. by eapply Hr.
Qed.
End registration.

Ltac io_agree :=
  repeat match goal with
         | H1 : ?t = (_, _), H2 : ?t = (_, _) |- _ => rewrite H1 in H2; simplify_eq
         | H1 : ?t = Some _, H2 : ?t = Some _ |- _ => rewrite H1 in H2; simplify_eq
         | H1 : ?t = Some _, H2 : ?t = None |- _ => rewrite H1 in H2; discriminate
         end.

Section nested.
Context {P : Type} `{!VIFProvider P}.
Variable CONF : vif_pool_conf.
Implicit Types (w : world P) (r : registries) (k : pool_key) (id : port_id).

(** X13. [NestedVIFPool], pool full, trunk id cached: when
    [_remove_subport], [_release_vlan_id] of the vlan id of the vif and
    [delete_port] return ([delete_port] may also raise
    [PortNotFoundClient]), the turn returns, the port is gone from
    [_existing_vifs] and [_recyclable_ports], and these three calls were
    made in this order. *)
Theorem nested_full_pool_deletes id k w t v vlan p1 p2 p3 res :
  BaseVIFPool.pool_has_room CONF (pool_size (regs w) k) = false →
  _known_trunk_ids (regs w) !! k = Some t → t ≠ "" →
  _recyclable_ports (regs w) !! id = Some k →
  _existing_vifs (regs w) !! id = Some (VifObject v) →
  vif_vlan_id v = Some vlan →
  _remove_subport t id (provider w) = (inr tt, p1) →
  _release_vlan_id vlan p1 = (inr tt, p2) →
  delete_port id p2 = (res, p3) →
  res = inr tt ∨ res = inl PortNotFoundClient →
  let r := NestedVIFPool.recycle_port CONF (id, k) w in
  r.1 = Return tt ∧
  regs r.2 = Registries (_available_ports_pools (regs w))
               (delete id (_existing_vifs (regs w)))
               (delete id (_recyclable_ports (regs w)))
               (_last_update (regs w)) (_known_trunk_ids (regs w)) ∧
  provider r.2 = p3 ∧
  ev_call <$> new_events w r.2
    = [Call_remove_subport t id; Call_release_vlan_id vlan; Call_delete_port id].
Proof.
  intros Hroom Htrunk Ht Hid Hex Hvlan Hrs Hrv Hdel Hres. cbv zeta.
  change (wp (NestedVIFPool.recycle_port CONF (id, k)) (λ o w',
    o = Return tt ∧
    regs w' = Registries (_available_ports_pools (regs w))
               (delete id (_existing_vifs (regs w)))
               (delete id (_recyclable_ports (regs w)))
               (_last_update (regs w)) (_known_trunk_ids (regs w)) ∧
    provider w' = p3 ∧
    ev_call <$> new_events w w'
      = [Call_remove_subport t id; Call_release_vlan_id vlan; Call_delete_port id]) w).
  unfold_drivers. wp_unfold. wp_simpl.
  do 4 wp_step. fold (pool_size (regs w) k). rewrite Hroom. cbv iota.
  do 4 wp_step. rewrite Htrunk. cbn [default from_option]. unfold Datatypes.id.
  rewrite bool_decide_eq_false_2 by done. cbv iota.
  repeat wp_step.
  all: io_agree.
  all: try (destruct Hres; congruence).
  all: unfold new_events; cbn [history]; rewrite <- ?app_assoc, drop_app_length.
  all: done.
Qed.
(** X14. [NestedVIFPool], pool full: for a recyclable port that has no entry
    in [_existing_vifs] the turn raises [AttributeError] after
    [_remove_subport] has returned; the lookup has stored an empty
    defaultdict under the id, the port stays in [_recyclable_ports] and the
    exception leaves the loop ([except KeyError] does not cover it). *)
Theorem nested_unregistered_port_raises id k w t p1 :
  BaseVIFPool.pool_has_room CONF (pool_size (regs w) k) = false →
  _known_trunk_ids (regs w) !! k = Some t → t ≠ "" →
  _existing_vifs (regs w) !! id = None →
  _remove_subport t id (provider w) = (inr tt, p1) →
  NestedVIFPool.recycle_port CONF (id, k) w =
    (Raised AttributeError,
     World (Registries (_available_ports_pools (regs w))
                       (<[id := EmptyDefaultdict]> (_existing_vifs (regs w)))
                       (_recyclable_ports (regs w)) (_last_update (regs w))
                       (_known_trunk_ids (regs w)))
           p1 (history w ++ [IOEvent (Call_remove_subport t id) (regs w) None])
           (log_records w) (spawned w)).
Proof.
  intros Hroom Htrunk Ht Hex Hrs. apply wp_eq.
  unfold_drivers. wp_unfold. wp_simpl.
  do 4 wp_step. fold (pool_size (regs w) k). rewrite Hroom. cbv iota.
  do 4 wp_step. rewrite Htrunk. cbn [default from_option]. unfold Datatypes.id.
  rewrite bool_decide_eq_false_2 by done. cbv iota.
  repeat wp_step.
  all: io_agree.
  all: rewrite ?registries_eta; done.
Qed.

(** X15. [NestedVIFPool], pool full: with a trunk id cached for the key the
    turn starts with [_remove_subport] on that trunk, looks nothing up and
    leaves [_known_trunk_ids] as it is; with none cached (or an empty one)
    and both lookups returning, it asks for the parent port of the host of
    the key, then for its trunk id, stores it under the key whatever
    follows, and goes on to [_remove_subport] on it. *)
Theorem nested_trunk_id_looked_up_once id k w :
  BaseVIFPool.pool_has_room CONF (pool_size (regs w) k) = false →
  let r := NestedVIFPool.recycle_port CONF (id, k) w in
  (∀ t, _known_trunk_ids (regs w) !! k = Some t → t ≠ "" →
        _known_trunk_ids (regs r.2) = _known_trunk_ids (regs w) ∧
        ∃ ev evs, new_events w r.2 = ev :: evs ∧
                  ev_call ev = Call_remove_subport t id ∧
                  Forall (λ ev', ∀ h, ev_call ev' ≠ Call_get_parent_port_by_host_ip h) evs ∧
                  Forall (λ ev', ∀ pp, ev_call ev' ≠ Call_get_trunk_id pp) evs) ∧
  (∀ parent t p1 p2,
     default "" (_known_trunk_ids (regs w) !! k) = "" →
     _get_parent_port_by_host_ip (key_host k) (provider w) = (inr parent, p1) →
     _get_trunk_id parent p1 = (inr t, p2) →
     _known_trunk_ids (regs r.2) = <[k := t]> (_known_trunk_ids (regs w)) ∧
     ∃ e1 e2 e3 evs, new_events w r.2 = e1 :: e2 :: e3 :: evs ∧
       ev_call e1 = Call_get_parent_port_by_host_ip (key_host k) ∧
       ev_call e2 = Call_get_trunk_id parent ∧
       ev_call e3 = Call_remove_subport t id).
Proof.
  intros Hroom. cbv zeta. split.
  - intros t Htrunk Ht.
    change (wp (NestedVIFPool.recycle_port CONF (id, k)) (λ o w',
      _known_trunk_ids (regs w') = _known_trunk_ids (regs w) ∧
      ∃ ev evs, new_events w w' = ev :: evs ∧
                ev_call ev = Call_remove_subport t id ∧
                Forall (λ ev', ∀ h, ev_call ev' ≠ Call_get_parent_port_by_host_ip h) evs ∧
                Forall (λ ev', ∀ pp, ev_call ev' ≠ Call_get_trunk_id pp) evs) w).
    unfold_drivers. wp_unfold. wp_simpl.
    do 4 wp_step. fold (pool_size (regs w) k). rewrite Hroom. cbv iota.
    do 4 wp_step. rewrite Htrunk. cbn [default from_option]. unfold Datatypes.id.
    rewrite bool_decide_eq_false_2 by done. cbv iota.
    repeat wp_step.
    all: split; [done|].
    all: unfold new_events; cbn [history]; rewrite <- ?app_assoc, drop_app_length.
    all: eexists _, _; split; [reflexivity|]; split; [done|].
    all: split; repeat (apply Forall_cons; split; [done|]); apply Forall_nil_2.
  - intros parent t p1 p2 Hnone Hpp Htr.
    change (wp (NestedVIFPool.recycle_port CONF (id, k)) (λ o w',
      _known_trunk_ids (regs w') = <[k := t]> (_known_trunk_ids (regs w)) ∧
      ∃ e1 e2 e3 evs, new_events w w' = e1 :: e2 :: e3 :: evs ∧
        ev_call e1 = Call_get_parent_port_by_host_ip (key_host k) ∧
        ev_call e2 = Call_get_trunk_id parent ∧
        ev_call e3 = Call_remove_subport t id) w).
    unfold_drivers. wp_unfold. wp_simpl.
    do 4 wp_step. fold (pool_size (regs w) k). rewrite Hroom. cbv iota.
    do 4 wp_step. rewrite Hnone.
    rewrite bool_decide_eq_true_2 by done. cbv iota.
    repeat wp_step.
    all: io_agree.
    all: split; [done|].
    all: unfold new_events; cbn [history]; rewrite <- ?app_assoc, drop_app_length.
    all: by eexists _, _, _, _.
Qed.
End nested.

Section neutron.
Context {P : Type} `{!VIFProvider P}.
Variable CONF : vif_pool_conf.
Implicit Types (w : world P) (r : registries) (k : pool_key) (id : port_id).

(** X11. [NeutronVIFPool], pool full: when [delete_port] returns or raises
    [PortNotFoundClient], the turn returns, the port is gone from
    [_existing_vifs] and [_recyclable_ports], no pool changes and
    [delete_port] is the only call. *)
Theorem neutron_full_pool_deletes id k w v res p' :
  BaseVIFPool.pool_has_room CONF (pool_size (regs w) k) = false →
  _existing_vifs (regs w) !! id = Some v →
  _recyclable_ports (regs w) !! id = Some k →
  delete_port id (provider w) = (res, p') →
  res = inr tt ∨ res = inl PortNotFoundClient →
  let r := NeutronVIFPool.recycle_port CONF (id, k) w in
  r.1 = Return tt ∧
  regs r.2 = Registries (_available_ports_pools (regs w))
               (delete id (_existing_vifs (regs w)))
               (delete id (_recyclable_ports (regs w)))
               (_last_update (regs w)) (_known_trunk_ids (regs w)) ∧
  provider r.2 = p' ∧
  ev_call <$> new_events w r.2 = [Call_delete_port id].
Proof.
  intros Hroom Hex Hid Hdel Hres. cbv zeta.
  rewrite (neutron_recycle_port_full CONF id k w v) by done. cbv zeta.
  rewrite Hdel. unfold new_events.
  destruct Hres as [-> | ->]; cbn [fst snd regs provider history];
    by rewrite drop_app_length.
Qed.

(** X12. [NeutronVIFPool], pool full: a recyclable port that has no entry in
    [_existing_vifs] is dropped from [_recyclable_ports] with a debug log
    and no call to Neutron: the port is not deleted there. *)
Theorem neutron_unregistered_port_dropped id k w :
  BaseVIFPool.pool_has_room CONF (pool_size (regs w) k) = false →
  _existing_vifs (regs w) !! id = None →
  _recyclable_ports (regs w) !! id = Some k →
  NeutronVIFPool.recycle_port CONF (id, k) w =
    (Return tt,
     World (Registries (_available_ports_pools (regs w)) (_existing_vifs (regs w))
                       (delete id (_recyclable_ports (regs w)))
                       (_last_update (regs w)) (_known_trunk_ids (regs w)))
           (provider w) (history w)
           (log_records w ++ [(DEBUG, "Port %s is not in the ports list.")])
           (spawned w)).
Proof. apply neutron_recycle_port_unregistered. Qed.
End neutron.
Section compositions.
Context {P : Type} `{!VIFProvider P}.
Variable CONF : vif_pool_conf.
Implicit Types (w : world P) (r : registries) (k : pool_key) (id : port_id).

(** X16. A run of [_populate_pool] that creates ports, followed by a
    request of the pod for the same key: the request returns the vif the
    VIF driver listed last and binds that port; the pool is left with what
    it held before the run and the other new ports, in the order of the
    batch. *)
Theorem populate_then_request_takes_newest
    d w now p project s sgs host body vifs v p1 p2 :
  let k := (host, project, sgs) in
  let n := Z.max (ports_pool_batch CONF) (ports_pool_min CONF - pool_size (regs w) k) in
  ¬ (now - ports_pool_update_frequency CONF < default 0 (_last_update (regs w) !! k)) →
  pool_size (regs w) k < ports_pool_min CONF →
  request_vifs p project s sgs n (provider w) = (inr (vifs ++ [v]), p1) →
  host_address p = Some host →
  bind_body d p = Some body →
  update_port (vif_id v) body p1 = (inr tt, p2) →
  let w1 := (BaseVIFPool._populate_pool CONF now k p s w).2 in
  let r := request_vif CONF d p project s sgs w1 in
  r.1 = Return (VifObject v) ∧
  pool (regs r.2) k = pool (regs w) k ++ (vif_id <$> vifs) ∧
  ev_call <$> new_events w r.2
    = [Call_request_vifs p project s sgs n; Call_update_port (vif_id v) body].
Proof.
  intros k n Hdue Hlow Hreq Hh Hb Hupd. cbv zeta.
  rewrite (populate_pool_run CONF now k p s w Hdue). cbv zeta.
  rewrite bool_decide_eq_true_2 by done.
  change (key_project k) with project. change (key_security_groups k) with sgs.
  fold n. rewrite Hreq. cbn [snd].
  set (r1 := register_batch k (vifs ++ [v]) (note_update k now (regs w))).
  assert (Hpool : pool r1 k = (pool (regs w) k ++ (vif_id <$> vifs)) ++ [vif_id v]).
  { unfold r1. rewrite register_batch_pool, fmap_app, app_assoc. done. }
  assert (Hex : _existing_vifs r1 !! vif_id v = Some (VifObject v)).
  { unfold r1. rewrite register_batch_snoc. unfold register_vif; simpl.
    by rewrite lookup_insert_eq. }
  match goal with
  | |- context [request_vif CONF d p project s sgs ?w1] =>
      rewrite (request_vif_bound CONF d w1 p project s sgs host body
                 (pool (regs w) k ++ (vif_id <$> vifs)) (vif_id v) p2 Hh Hb Hpool Hupd)
  end.
  cbv zeta. cbn [fst snd regs history]. rewrite Hex. cbn [default from_option].
  unfold Datatypes.id. split_and!.
  - done.
  - apply pool_insert_eq.
  - unfold new_events. cbn [history]. rewrite <- app_assoc, drop_app_length. done.
Qed.

(** X17. [release_vif] does not look at the pools: when a port that sits in
    a pool is released and then recycled while the pool has room, Neutron
    accepting the update, the port is appended to the pool again and the
    pool holds it twice. (Invariant 1 needs the releases to be of ports in
    use.) *)
Theorem release_of_pooled_port_duplicates d w p v project sgs host p' :
  let k := (host, project, sgs) in
  host_address p = Some host →
  vif_id v ∈ pool (regs w) k →
  BaseVIFPool.pool_has_room CONF (pool_size (regs w) k) = true →
  update_port (vif_id v) (clean_body d k) (provider w) = (inr tt, p') →
  let w1 := (BaseVIFPool.release_vif p v project sgs w).2 in
  let r := recycle_port CONF d (vif_id v, k) w1 in
  r.1 = Return tt ∧
  pool (regs r.2) k = pool (regs w) k ++ [vif_id v] ∧
  ¬ NoDup (pool (regs r.2) k).
Proof.
  intros k Hh Hin Hroom Hupd. cbv zeta.
  rewrite (release_vif_run w p v project sgs host Hh). cbn [snd].
  set (w1 := World _ _ _ _ _).
  assert (Hpool : pool (regs w1) k = pool (regs w) k) by done.
  rewrite (recycle_port_clean CONF d (vif_id v) k w1).
  - cbv zeta. change (provider w1) with (provider w). rewrite Hupd.
    cbn [fst snd regs]. rewrite pool_insert_eq, Hpool. split_and!; [done..|].
    rewrite NoDup_app. intros (_ & Hdisj & _).
    apply (Hdisj (vif_id v) Hin). apply list_elem_of_singleton. done.
  - unfold pool_size. rewrite Hpool. exact Hroom.
  - unfold w1. cbn [regs _recyclable_ports]. apply lookup_insert_eq.
Qed.
End compositions.
(** ** The further properties at work *)

Lemma not_pooled_true r id :
  bool_decide (map_Forall (λ _ l, id ∉ l) (_available_ports_pools r)) = true →
  ∀ k, id ∉ pool r k.
Proof.
  intros Hp%bool_decide_eq_true k Hin. unfold pool in Hin.
  destruct (_available_ports_pools r !! k) as [l|] eqn:Hk; simpl in Hin.
  - by apply (Hp k l Hk).
  - by apply elem_of_nil in Hin.
Qed.

Lemma ex_released_at_most_one : at_most_one (regs ex_released).
Proof.
  apply (at_most_one_release empty_registries "r9" ex_key
           (<["r9" := VifObject (ex_vif "r9")]> ∅)).
  - apply in_use_b_true. vm_compute. reflexivity.
  - apply at_most_one_init.
Qed.

Lemma request_vif_success_witness :
  host_address ex_pod = Some "h1" ∧
  bind_body Neutron ex_pod = Some (PortUpdate "pod-1" (Some "uid-1") None) ∧
  pool (regs (ex_populated [])) ("h1", "p1", ["sgA"]) = ["r1"; "r2"] ++ ["r3"] ∧
  update_port "r3" (PortUpdate "pod-1" (Some "uid-1") None) (provider (ex_populated []))
    = (inr tt, provider (ex_populated [])) ∧
  (request_vif ex_conf Neutron ex_pod "p1" [] ["sgA"] (ex_populated [])).1
    = Return (VifObject (ex_vif "r3")).
Proof.
  assert (H1 : host_address ex_pod = Some "h1") by (vm_compute; reflexivity).
  assert (H2 : bind_body Neutron ex_pod = Some (PortUpdate "pod-1" (Some "uid-1") None))
    by (vm_compute; reflexivity).
  assert (H3 : pool (regs (ex_populated [])) ("h1", "p1", ["sgA"]) = ["r1"; "r2"] ++ ["r3"])
    by (vm_compute; reflexivity).
  assert (H4 : update_port "r3" (PortUpdate "pod-1" (Some "uid-1") None)
                 (provider (ex_populated []))
               = (inr tt, provider (ex_populated [])))
    by (vm_compute; reflexivity).
  split_and!; [done..|].
  rewrite (request_vif_success ex_conf Neutron (ex_populated []) ex_pod "p1" [] ["sgA"]
             "h1" _ _ _ _ H1 H2 H3 H4).
  cbn [fst]. vm_compute. reflexivity.
Defined.

Lemma request_vif_missing_metadata_witness :
  host_address ex_nameless_pod = Some "h1" ∧
  bind_body Nested ex_nameless_pod = None ∧
  pool (regs (ex_populated [])) ("h1", "p1", ["sgA"]) = ["r1"; "r2"] ++ ["r3"] ∧
  (request_vif ex_conf Nested ex_nameless_pod "p1" [] ["sgA"] (ex_populated [])).1
    = Raised KeyError.
Proof.
  assert (H1 : host_address ex_nameless_pod = Some "h1") by (vm_compute; reflexivity).
  assert (H2 : bind_body Nested ex_nameless_pod = None) by (vm_compute; reflexivity).
  assert (H3 : pool (regs (ex_populated [])) ("h1", "p1", ["sgA"]) = ["r1"; "r2"] ++ ["r3"])
    by (vm_compute; reflexivity).
  split_and!; [done..|].
  by rewrite (request_vif_missing_metadata ex_conf Nested (ex_populated [])
                ex_nameless_pod "p1" [] ["sgA"] "h1" _ _ H1 H2 H3).
Defined.

Lemma request_vif_empty_pool_exact_witness :
  host_address ex_pod = Some "h1" ∧
  pool (regs (init_world (ex_neutron []))) ("h1", "p1", ["sgA"]) = [] ∧
  (request_vif ex_conf Neutron ex_pod "p1" [] ["sgA"] (init_world (ex_neutron []))).1
    = Raised ResourceNotReady.
Proof.
  assert (H1 : host_address ex_pod = Some "h1") by (vm_compute; reflexivity).
  assert (H2 : pool (regs (init_world (ex_neutron []))) ("h1", "p1", ["sgA"]) = [])
    by (vm_compute; reflexivity).
  split_and!; [done..|].
  by rewrite (request_vif_empty_pool_exact ex_conf Neutron (init_world (ex_neutron []))
                ex_pod "p1" [] ["sgA"] "h1" H1 H2).
Defined.

Lemma release_vif_queues_port_witness :
  host_address ex_pod = Some "h1" ∧
  _recyclable_ports
    (regs (BaseVIFPool.release_vif ex_pod (ex_vif "r3") "p1" ["sgA"] (ex_populated [])).2)
    !! vif_id (ex_vif "r3") = Some ("h1", "p1", ["sgA"]).
Proof.
  assert (H1 : host_address ex_pod = Some "h1") by (vm_compute; reflexivity).
  split; [exact H1|].
  exact (proj1 (proj2 (release_vif_queues_port (ex_populated []) ex_pod (ex_vif "r3")
                         "p1" ["sgA"] "h1" H1))).
Defined.

Lemma request_release_recycle_round_trip_witness :
  host_address ex_pod = Some "h1" ∧
  bind_body Neutron ex_pod = Some (PortUpdate "pod-1" (Some "uid-1") None) ∧
  pool (regs (ex_populated [])) ("h1", "p1", ["sgA"]) = ["r1"; "r2"] ++ ["r3"] ∧
  _existing_vifs (regs (ex_populated [])) !! "r3" = Some (VifObject (ex_vif "r3")) ∧
  vif_id (ex_vif "r3") = "r3" ∧
  _recyclable_ports (regs (ex_populated [])) !! "r3" = None ∧
  BaseVIFPool.pool_has_room ex_conf (Z.of_nat (length ["r1"; "r2"])) = true ∧
  update_port "r3" (PortUpdate "pod-1" (Some "uid-1") None) (provider (ex_populated []))
    = (inr tt, provider (ex_populated [])) ∧
  update_port "r3" (clean_body Neutron ("h1", "p1", ["sgA"])) (provider (ex_populated []))
    = (inr tt, provider (ex_populated [])) ∧
  _existing_vifs
    (regs (recycle_port ex_conf Neutron ("r3", ("h1", "p1", ["sgA"]))
             (BaseVIFPool.release_vif ex_pod (ex_vif "r3") "p1" ["sgA"]
                (request_vif ex_conf Neutron ex_pod "p1" [] ["sgA"]
                   (ex_populated [])).2).2).2)
    = _existing_vifs (regs (ex_populated [])).
Proof.
  assert (H1 : host_address ex_pod = Some "h1") by (vm_compute; reflexivity).
  assert (H2 : bind_body Neutron ex_pod = Some (PortUpdate "pod-1" (Some "uid-1") None))
    by (vm_compute; reflexivity).
  assert (H3 : pool (regs (ex_populated [])) ("h1", "p1", ["sgA"]) = ["r1"; "r2"] ++ ["r3"])
    by (vm_compute; reflexivity).
  assert (H4 : _existing_vifs (regs (ex_populated [])) !! "r3"
               = Some (VifObject (ex_vif "r3")))
    by (vm_compute; reflexivity).
  assert (H5 : vif_id (ex_vif "r3") = "r3") by reflexivity.
  assert (H6 : _recyclable_ports (regs (ex_populated [])) !! "r3" = None)
    by (vm_compute; reflexivity).
  assert (H7 : BaseVIFPool.pool_has_room ex_conf (Z.of_nat (length ["r1"; "r2"])) = true)
    by (vm_compute; reflexivity).
  assert (H8 : update_port "r3" (PortUpdate "pod-1" (Some "uid-1") None)
                 (provider (ex_populated []))
               = (inr tt, provider (ex_populated [])))
    by (vm_compute; reflexivity).
  assert (H9 : update_port "r3" (clean_body Neutron ("h1", "p1", ["sgA"]))
                 (provider (ex_populated []))
               = (inr tt, provider (ex_populated [])))
    by (vm_compute; reflexivity).
  split_and!; [done..|].
  exact (proj1 (proj2 (proj2
    (request_release_recycle_round_trip ex_conf Neutron (ex_populated []) ex_pod "p1" []
       ["sgA"] "h1" _ ["r1"; "r2"] "r3" (ex_vif "r3") _ _
       H1 H2 H3 H4 H5 H6 H7 H8 H9)))).
Defined.

Lemma unlimited_pool_never_deletes_witness :
  ports_pool_max default_conf = 0 ∧
  Forall is_update_port
    (new_events queued_world (recycle_cycle default_conf Nested queued_world).2).
Proof.
  assert (H1 : ports_pool_max default_conf = 0) by reflexivity.
  split; [exact H1|].
  exact (proj2 (proj2 (proj2
    (unlimited_pool_never_deletes default_conf Nested queued_world H1)))).
Defined.

Lemma unlimited_cycle_drains_witness :
  ports_pool_max default_conf = 0 ∧
  (∀ id body (p : obliging), ∃ p', update_port id body p = (inr tt, p')) ∧
  _recyclable_ports (regs (recycle_cycle default_conf Neutron queued_world).2) = ∅.
Proof.
  assert (H1 : ports_pool_max default_conf = 0) by reflexivity.
  assert (H2 : ∀ id body (p : obliging), ∃ p', update_port id body p = (inr tt, p'))
    by (intros id body p; exists p; reflexivity).
  split_and!; [done..|].
  exact (proj1 (proj2 (unlimited_cycle_drains default_conf Neutron queued_world H1 H2))).
Defined.

Lemma recycle_cycle_at_most_one_witness :
  at_most_one (regs ex_released) ∧
  at_most_one (regs (recycle_cycle ex_conf Neutron ex_released).2).
Proof.
  split; [apply ex_released_at_most_one|].
  apply (recycle_cycle_at_most_one ex_conf Neutron ex_released), ex_released_at_most_one.
Defined.

Lemma registered_kept_witness :
  registered (regs (full_world Neutron [])) ∧
  registered (regs (request_vif full_conf Neutron ex_pod "p1" [] ["sgA"]
                      (full_world Neutron [])).2).
Proof.
  assert (H1 : registered (regs (full_world Neutron [])))
    by (apply registered_b_true; vm_compute; reflexivity).
  split; [exact H1|].
  exact (proj1 (registered_kept full_conf Neutron (full_world Neutron []) H1)
           ex_pod "p1" [] ["sgA"]).
Defined.

Lemma registered_kept_by_recycle_witness :
  (∀ (p : obliging) e p', delete_port "r3" p = (inl e, p') →
                          e = PortNotFoundClient ∨ e = KeyError) ∧
  _recyclable_ports (regs queued_world) !! "r3" = Some ex_key ∧
  (∀ k', "r3" ∉ pool (regs queued_world) k') ∧
  registered (regs queued_world) ∧
  registered (regs (recycle_port full_conf Neutron ("r3", ex_key) queued_world).2).
Proof.
  assert (H1 : ∀ (p : obliging) e p', delete_port "r3" p = (inl e, p') →
                                      e = PortNotFoundClient ∨ e = KeyError)
    by (intros p e p' H; discriminate H).
  assert (H2 : _recyclable_ports (regs queued_world) !! "r3" = Some ex_key)
    by (vm_compute; reflexivity).
  assert (H3 : ∀ k', "r3" ∉ pool (regs queued_world) k')
    by (apply not_pooled_true; vm_compute; reflexivity).
  assert (H4 : registered (regs queued_world))
    by (apply registered_b_true; vm_compute; reflexivity).
  split_and!; [done..|].
  exact (registered_kept_by_recycle full_conf Neutron "r3" ex_key queued_world
           H1 H2 H3 H4).
Defined.

Lemma neutron_full_pool_deletes_witness :
  BaseVIFPool.pool_has_room full_conf (pool_size (regs (full_world Neutron [])) ex_key)
    = false ∧
  _existing_vifs (regs (full_world Neutron [])) !! "r1" = Some (VifObject (ex_vif "r1")) ∧
  _recyclable_ports (regs (full_world Neutron [])) !! "r1" = Some ex_key ∧
  delete_port "r1" (provider (full_world Neutron []))
    = (inr tt, provider (full_world Neutron [])) ∧
  ev_call <$> new_events (full_world Neutron [])
                (NeutronVIFPool.recycle_port full_conf ("r1", ex_key)
                   (full_world Neutron [])).2
    = [Call_delete_port "r1"].
Proof.
  assert (H1 : BaseVIFPool.pool_has_room full_conf
                 (pool_size (regs (full_world Neutron [])) ex_key) = false)
    by (vm_compute; reflexivity).
  assert (H2 : _existing_vifs (regs (full_world Neutron [])) !! "r1"
               = Some (VifObject (ex_vif "r1")))
    by (vm_compute; reflexivity).
  assert (H3 : _recyclable_ports (regs (full_world Neutron [])) !! "r1" = Some ex_key)
    by (vm_compute; reflexivity).
  assert (H4 : delete_port "r1" (provider (full_world Neutron []))
               = (inr tt, provider (full_world Neutron [])))
    by (vm_compute; reflexivity).
  split_and!; [done..|].
  exact (proj2 (proj2 (proj2
    (neutron_full_pool_deletes full_conf "r1" ex_key (full_world Neutron []) _ _ _
       H1 H2 H3 H4 (or_introl eq_refl))))).
Defined.

Lemma neutron_unregistered_port_dropped_witness :
  BaseVIFPool.pool_has_room full_conf (pool_size (regs neutron_after_error) ex_key)
    = false ∧
  _existing_vifs (regs neutron_after_error) !! "r1" = None ∧
  _recyclable_ports (regs neutron_after_error) !! "r1" = Some ex_key ∧
  (NeutronVIFPool.recycle_port full_conf ("r1", ex_key) neutron_after_error).1
    = Return tt.
Proof.
  assert (H1 : BaseVIFPool.pool_has_room full_conf
                 (pool_size (regs neutron_after_error) ex_key) = false)
    by (vm_compute; reflexivity).
  assert (H2 : _existing_vifs (regs neutron_after_error) !! "r1" = None)
    by (vm_compute; reflexivity).
  assert (H3 : _recyclable_ports (regs neutron_after_error) !! "r1" = Some ex_key)
    by (vm_compute; reflexivity).
  split_and!; [done..|].
  by rewrite (neutron_unregistered_port_dropped full_conf "r1" ex_key neutron_after_error
                H1 H2 H3).
Defined.

Lemma nested_full_pool_deletes_witness :
  BaseVIFPool.pool_has_room full_conf (pool_size (regs nested_after_turn) ex_key)
    = false ∧
  _known_trunk_ids (regs nested_after_turn) !! ex_key = Some "trunk-of-parent-of-h1" ∧
  "trunk-of-parent-of-h1" ≠ "" ∧
  _recyclable_ports (regs nested_after_turn) !! "r2" = Some ex_key ∧
  _existing_vifs (regs nested_after_turn) !! "r2" = Some (VifObject (ex_vif "r2")) ∧
  vif_vlan_id (ex_vif "r2") = Some 100 ∧
  _remove_subport "trunk-of-parent-of-h1" "r2" (provider nested_after_turn)
    = (inr tt, provider nested_after_turn) ∧
  _release_vlan_id 100 (provider nested_after_turn)
    = (inr tt, provider nested_after_turn) ∧
  delete_port "r2" (provider nested_after_turn) = (inr tt, provider nested_after_turn) ∧
  ev_call <$> new_events nested_after_turn
                (NestedVIFPool.recycle_port full_conf ("r2", ex_key) nested_after_turn).2
    = [Call_remove_subport "trunk-of-parent-of-h1" "r2"; Call_release_vlan_id 100;
       Call_delete_port "r2"].
Proof.
  assert (H1 : BaseVIFPool.pool_has_room full_conf
                 (pool_size (regs nested_after_turn) ex_key) = false)
    by (vm_compute; reflexivity).
  assert (H2 : _known_trunk_ids (regs nested_after_turn) !! ex_key
               = Some "trunk-of-parent-of-h1")
    by (vm_compute; reflexivity).
  assert (H3 : "trunk-of-parent-of-h1" ≠ "") by discriminate.
  assert (H4 : _recyclable_ports (regs nested_after_turn) !! "r2" = Some ex_key)
    by (vm_compute; reflexivity).
  assert (H5 : _existing_vifs (regs nested_after_turn) !! "r2"
               = Some (VifObject (ex_vif "r2")))
    by (vm_compute; reflexivity).
  assert (H6 : vif_vlan_id (ex_vif "r2") = Some 100) by reflexivity.
  assert (H7 : _remove_subport "trunk-of-parent-of-h1" "r2" (provider nested_after_turn)
               = (inr tt, provider nested_after_turn))
    by (vm_compute; reflexivity).
  assert (H8 : _release_vlan_id 100 (provider nested_after_turn)
               = (inr tt, provider nested_after_turn))
    by (vm_compute; reflexivity).
  assert (H9 : delete_port "r2" (provider nested_after_turn)
               = (inr tt, provider nested_after_turn))
    by (vm_compute; reflexivity).
  split_and!; [done..|].
  exact (proj2 (proj2 (proj2
    (nested_full_pool_deletes full_conf "r2" ex_key nested_after_turn _ _ _ _ _ _ _
       H1 H2 H3 H4 H5 H6 H7 H8 H9 (or_introl eq_refl))))).
Defined.

Lemma nested_unregistered_port_raises_witness :
  BaseVIFPool.pool_has_room full_conf (pool_size (regs nested_after_error) ex_key)
    = false ∧
  _known_trunk_ids (regs nested_after_error) !! ex_key = Some "trunk-of-parent-of-h1" ∧
  "trunk-of-parent-of-h1" ≠ "" ∧
  _existing_vifs (regs nested_after_error) !! "r1" = None ∧
  _remove_subport "trunk-of-parent-of-h1" "r1" (provider nested_after_error)
    = (inr tt, provider nested_after_error) ∧
  (NestedVIFPool.recycle_port full_conf ("r1", ex_key) nested_after_error).1
    = Raised AttributeError.
Proof.
  assert (H1 : BaseVIFPool.pool_has_room full_conf
                 (pool_size (regs nested_after_error) ex_key) = false)
    by (vm_compute; reflexivity).
  assert (H2 : _known_trunk_ids (regs nested_after_error) !! ex_key
               = Some "trunk-of-parent-of-h1")
    by (vm_compute; reflexivity).
  assert (H3 : "trunk-of-parent-of-h1" ≠ "") by discriminate.
  assert (H4 : _existing_vifs (regs nested_after_error) !! "r1" = None)
    by (vm_compute; reflexivity).
  assert (H5 : _remove_subport "trunk-of-parent-of-h1" "r1" (provider nested_after_error)
               = (inr tt, provider nested_after_error))
    by (vm_compute; reflexivity).
  split_and!; [done..|].
  exact (f_equal fst
    (nested_unregistered_port_raises full_conf "r1" ex_key nested_after_error
       "trunk-of-parent-of-h1" (provider nested_after_error) H1 H2 H3 H4 H5)).
Defined.

Lemma nested_trunk_id_looked_up_once_witness :
  BaseVIFPool.pool_has_room full_conf (pool_size (regs (full_world Nested [])) ex_key)
    = false ∧
  default "" (_known_trunk_ids (regs (full_world Nested [])) !! ex_key) = "" ∧
  _get_parent_port_by_host_ip (key_host ex_key) (provider (full_world Nested []))
    = (inr "parent-of-h1", provider (full_world Nested [])) ∧
  _get_trunk_id "parent-of-h1" (provider (full_world Nested []))
    = (inr "trunk-of-parent-of-h1", provider (full_world Nested [])) ∧
  _known_trunk_ids
    (regs (NestedVIFPool.recycle_port full_conf ("r1", ex_key) (full_world Nested [])).2)
    = <[ex_key := "trunk-of-parent-of-h1"]>
        (_known_trunk_ids (regs (full_world Nested []))).
Proof.
  assert (H1 : BaseVIFPool.pool_has_room full_conf
                 (pool_size (regs (full_world Nested [])) ex_key) = false)
    by (vm_compute; reflexivity).
  assert (H2 : default "" (_known_trunk_ids (regs (full_world Nested [])) !! ex_key) = "")
    by (vm_compute; reflexivity).
  assert (H3 : _get_parent_port_by_host_ip (key_host ex_key)
                 (provider (full_world Nested []))
               = (inr "parent-of-h1", provider (full_world Nested [])))
    by (vm_compute; reflexivity).
  assert (H4 : _get_trunk_id "parent-of-h1" (provider (full_world Nested []))
               = (inr "trunk-of-parent-of-h1", provider (full_world Nested [])))
    by (vm_compute; reflexivity).
  split_and!; [done..|].
  exact (proj1 (proj2
    (nested_trunk_id_looked_up_once full_conf "r1" ex_key (full_world Nested []) H1)
    "parent-of-h1" "trunk-of-parent-of-h1" _ _ H2 H3 H4)).
Defined.

Lemma populate_then_request_takes_newest_witness :
  ¬ (100 - ports_pool_update_frequency ex_conf
     < default 0 (_last_update (regs (init_world (ex_neutron []))) !! ("h1", "p1", ["sgA"]))) ∧
  pool_size (regs (init_world (ex_neutron []))) ("h1", "p1", ["sgA"])
    < ports_pool_min ex_conf ∧
  request_vifs ex_pod "p1" [] ["sgA"]
    (Z.max (ports_pool_batch ex_conf)
           (ports_pool_min ex_conf
            - pool_size (regs (init_world (ex_neutron []))) ("h1", "p1", ["sgA"])))
    (provider (init_world (ex_neutron [])))
    = (inr ([ex_vif "r1"; ex_vif "r2"] ++ [ex_vif "r3"]), provider (ex_populated [])) ∧
  host_address ex_pod = Some "h1" ∧
  bind_body Neutron ex_pod = Some (PortUpdate "pod-1" (Some "uid-1") None) ∧
  update_port (vif_id (ex_vif "r3")) (PortUpdate "pod-1" (Some "uid-1") None)
    (provider (ex_populated []))
    = (inr tt, provider (ex_populated [])) ∧
  (request_vif ex_conf Neutron ex_pod "p1" [] ["sgA"]
     (BaseVIFPool._populate_pool ex_conf 100 ("h1", "p1", ["sgA"]) ex_pod []
        (init_world (ex_neutron []))).2).1
    = Return (VifObject (ex_vif "r3")).
Proof.
  assert (H1 : ¬ (100 - ports_pool_update_frequency ex_conf
                  < default 0 (_last_update (regs (init_world (ex_neutron [])))
                                 !! ("h1", "p1", ["sgA"]))))
    by (vm_compute; discriminate).
  assert (H2 : pool_size (regs (init_world (ex_neutron []))) ("h1", "p1", ["sgA"])
               < ports_pool_min ex_conf)
    by (vm_compute; reflexivity).
  assert (H3 : request_vifs ex_pod "p1" [] ["sgA"]
                 (Z.max (ports_pool_batch ex_conf)
                    (ports_pool_min ex_conf
                     - pool_size (regs (init_world (ex_neutron [])))
                         ("h1", "p1", ["sgA"])))
                 (provider (init_world (ex_neutron [])))
               = (inr ([ex_vif "r1"; ex_vif "r2"] ++ [ex_vif "r3"]),
                  provider (ex_populated [])))
    by (vm_compute; reflexivity).
  assert (H4 : host_address ex_pod = Some "h1") by (vm_compute; reflexivity).
  assert (H5 : bind_body Neutron ex_pod = Some (PortUpdate "pod-1" (Some "uid-1") None))
    by (vm_compute; reflexivity).
  assert (H6 : update_port (vif_id (ex_vif "r3")) (PortUpdate "pod-1" (Some "uid-1") None)
                 (provider (ex_populated []))
               = (inr tt, provider (ex_populated [])))
    by (vm_compute; reflexivity).
  split_and!; [done..|].
  exact (proj1
    (populate_then_request_takes_newest ex_conf Neutron (init_world (ex_neutron [])) 100
       ex_pod "p1" [] ["sgA"] "h1" _ _ _ _ _ H1 H2 H3 H4 H5 H6)).
Defined.

Lemma release_of_pooled_port_duplicates_witness :
  host_address ex_pod = Some "h1" ∧
  vif_id (ex_vif "r2") ∈ pool (regs (ex_populated [])) ("h1", "p1", ["sgA"]) ∧
  BaseVIFPool.pool_has_room ex_conf
    (pool_size (regs (ex_populated [])) ("h1", "p1", ["sgA"])) = true ∧
  update_port (vif_id (ex_vif "r2")) (clean_body Neutron ("h1", "p1", ["sgA"]))
    (provider (ex_populated []))
    = (inr tt, provider (ex_populated [])) ∧
  ¬ NoDup (pool (regs (recycle_port ex_conf Neutron
                         (vif_id (ex_vif "r2"), ("h1", "p1", ["sgA"]))
                         (BaseVIFPool.release_vif ex_pod (ex_vif "r2") "p1" ["sgA"]
                            (ex_populated [])).2).2)
                ("h1", "p1", ["sgA"])).
Proof.
  assert (H1 : host_address ex_pod = Some "h1") by (vm_compute; reflexivity).
  assert (H2 : vif_id (ex_vif "r2") ∈ pool (regs (ex_populated [])) ("h1", "p1", ["sgA"]))
    by (vm_compute; apply list_elem_of_In; simpl; tauto).
  assert (H3 : BaseVIFPool.pool_has_room ex_conf
                 (pool_size (regs (ex_populated [])) ("h1", "p1", ["sgA"])) = true)
    by (vm_compute; reflexivity).
  assert (H4 : update_port (vif_id (ex_vif "r2")) (clean_body Neutron ("h1", "p1", ["sgA"]))
                 (provider (ex_populated []))
               = (inr tt, provider (ex_populated [])))
    by (vm_compute; reflexivity).
  split_and!; [done..|].
  exact (proj2 (proj2
    (release_of_pooled_port_duplicates ex_conf Neutron (ex_populated []) ex_pod
       (ex_vif "r2") "p1" ["sgA"] "h1" _ H1 H2 H3 H4))).
Defined.
